(** * Benford's Law game: scorer, leaderboard store and form handlers

    A shallow embedding of [app.py].  Python values are modelled as follows.

    - [int] is [Z]; [str] is [string], text over the characters 0 to 255;
      a [list] is a [list].
    - A [float] is a real number: the arithmetic of the scorer is exact real
      arithmetic.  One thing of the float world is kept, because it changes
      the control flow: [math.exp] raises [OverflowError] when its result
      exceeds the largest finite double.  An [int] that meets a float is
      taken to be one a double can hold, as the counts of a dataset are: the
      [OverflowError] of an int too large for a float, or of a square out of
      range, is not modelled, and statements about the scorer on its own
      say so where it matters.
    - An exception is a value of [exn]; code that can raise returns a
      [result].
    - The CSV file is its text ([None] when the file does not exist); the
      [csv] writer and reader are modelled for the default (excel) dialect
      the program uses.
    - [str(x)] and [float(s)] for floats are parameters of the persistence
      layer ([float_repr], [python_float]). *)

From Stdlib Require Import Reals Lra Lia ZArith List String Ascii Bool.
From Stdlib Require Import Sorting.Sorted Sorting.Permutation.
Import ListNotations.

(** ** Exceptions and results *)

Inductive exn : Set :=
| ZeroDivisionError
| OverflowError
| ValueError
| IndexError
| CsvError
| StopIteration.

Inductive result (A : Type) : Type :=
| Ok (a : A)
| Raise (e : exn).

Arguments Ok {A} a.
Arguments Raise {A} e.

Definition bind {A B : Type} (m : result A) (f : A -> result B) : result B :=
  match m with
  | Ok a => f a
  | Raise e => Raise e
  end.

Notation "x <- m ;; k" := (bind m (fun x => k))
  (at level 61, m at next level, right associativity).

(** [for x in xs: s = body(s, x)], stopping at the first exception. *)
Fixpoint for_each {A S : Type} (xs : list A) (body : S -> A -> result S) (s : S)
  : result S :=
  match xs with
  | [] => Ok s
  | x :: xs' => s' <- body s x ;; for_each xs' body s'
  end.

(** [l[i]] for [0 <= i]. *)
Definition getitem {A : Type} (l : list A) (i : nat) : result A :=
  match nth_error l i with
  | Some a => Ok a
  | None => Raise IndexError
  end.

(** ** Scorer *)

Module Scorer.

Local Open Scope R_scope.

Definition BENFORD : list R :=
  [0.301; 0.176; 0.125; 0.097; 0.079; 0.067; 0.058; 0.051; 0.046].

(** Largest finite double, (2^53 - 1) * 2^971. *)
Definition DBL_MAX : R := (2 ^ 53 - 1) * 2 ^ 971.

(** [math.exp(x)]: "math range error" when the result is out of range. *)
Definition math_exp (x : R) : result R :=
  if Rle_dec (exp x) DBL_MAX then Ok (exp x) else Raise OverflowError.

(** Nearest integer, ties to the even one. *)
Definition round_half_even (y : R) : Z :=
  let f := Int_part y in
  if Rlt_dec (frac_part y) (1 / 2) then f
  else if Rlt_dec (1 / 2) (frac_part y) then (f + 1)%Z
  else if Z.even f then f else (f + 1)%Z.

(** [round(x, 1)]. *)
Definition py_round1 (x : R) : R := IZR (round_half_even (x * 10)) / 10.

(** One iteration of the loop of [chi_square_score], in exact arithmetic:
    the counts and the total are ints within the range of a double. *)
Definition chi_term (counts : list Z) (benford : list R) (total : Z)
    (chi_sq : R) (i : nat) : result R :=
  O <- getitem counts i ;;
  b <- getitem benford i ;;
  let E := b * IZR total in
  if Rlt_dec 0 E then Ok (chi_sq + (IZR O - E) ^ 2 / E) else Ok chi_sq.

(** The chi-square statistic: the loop over [range(9)]. *)
Definition chi_square (counts : list Z) (benford : list R) (total : Z)
  : result R :=
  for_each (seq 0 9) (chi_term counts benford total) 0.

Definition k : R := 0.10.
Definition mid : R := 20.

(** The scoring curve applied to the statistic. *)
Definition score_of_chi_sq (chi_sq : R) : result R :=
  e <- math_exp (k * (chi_sq - mid)) ;;
  let score := 100 / (1 + e) in
  Ok (py_round1 score).

Definition chi_square_score (counts : list Z) (benford : list R) (total : Z)
  : result R :=
  chi_sq <- chi_square counts benford total ;;
  score_of_chi_sq chi_sq.

End Scorer.

(** ** Text: whitespace, digit runs, first-digit histogram *)

Module Text.

Local Open Scope char_scope.

Definition is_digit (c : ascii) : bool :=
  let n := nat_of_ascii c in (48 <=? n)%nat && (n <=? 57)%nat.

(** The characters below 256 that [str.isspace] accepts, which are the ones
    [str.strip] removes. *)
Definition is_space (c : ascii) : bool :=
  let n := nat_of_ascii c in
  ((9 <=? n)%nat && (n <=? 13)%nat) || ((28 <=? n)%nat && (n <=? 32)%nat)
  || (n =? 133)%nat || (n =? 160)%nat.

Definition is_empty (s : string) : bool :=
  match s with
  | EmptyString => true
  | String _ _ => false
  end.

Fixpoint lstrip (s : string) : string :=
  match s with
  | EmptyString => EmptyString
  | String c s' => if is_space c then lstrip s' else s
  end.

Definition reverse (s : string) : string :=
  string_of_list_ascii (rev (list_ascii_of_string s)).

Definition rstrip (s : string) : string := reverse (lstrip (reverse s)).

(** [s.strip()] *)
Definition strip (s : string) : string := rstrip (lstrip s).

(** The run collected so far, closed as a match if it is not empty. *)
Definition flush (cur : string) : list string :=
  if is_empty cur then [] else [cur].

(** [re.findall(r"\d+", s)]: the maximal runs of digits, left to right.
    [cur] is the run being read. *)
Fixpoint findall_digits_from (cur : string) (s : string) : list string :=
  match s with
  | EmptyString => flush cur
  | String c s' =>
      if is_digit c then findall_digits_from (cur ++ String c EmptyString) s'
      else flush cur ++ findall_digits_from EmptyString s'
  end.

Definition findall_digits (s : string) : list string :=
  findall_digits_from EmptyString s.

(** [int(c)] for a digit character. *)
Definition int_of_digit (c : ascii) : Z := Z.of_nat (nat_of_ascii c) - 48.

(** [counts[i] += 1] *)
Fixpoint incr_at (i : nat) (counts : list Z) : result (list Z) :=
  match counts, i with
  | [], _ => Raise IndexError
  | c :: cs, O => Ok ((c + 1)%Z :: cs)
  | c :: cs, S i' => cs' <- incr_at i' cs ;; Ok (c :: cs')
  end.

(** The body of the counting loop of the submit handler, for one token. *)
Definition count_token (counts : list Z) (n : string) : result (list Z) :=
  match n with
  | EmptyString => Raise IndexError
  | String c _ =>
      if negb (c =? "0") then
        let d := int_of_digit c in
        if ((1 <=? d) && (d <=? 9))%Z then incr_at (Z.to_nat (d - 1)) counts
        else Ok counts
      else Ok counts
  end.

(** [counts = [0]*9] followed by the loop over the tokens. *)
Definition count_first_digits (numbers : list string) : result (list Z) :=
  for_each numbers count_token (repeat 0%Z 9).

(** [sum(counts)] *)
Definition sum (counts : list Z) : Z := fold_left Z.add counts 0%Z.

End Text.

(** ** Leaderboard *)

Module Leaderboard.

Local Open Scope R_scope.

Record entry : Type := mk_entry {
  name : string;
  score : R;
  timestamp : string
}.

Definition set_name (new_name : string) (e : entry) : entry :=
  {| name := new_name; score := score e; timestamp := timestamp e |}.

(** Insertion of [x] into a list sorted by decreasing score: [x] goes before
    the first entry whose score is not greater than its own. *)
Fixpoint insert_desc (x : entry) (l : list entry) : list entry :=
  match l with
  | [] => [x]
  | y :: l' =>
      if Rlt_dec (score x) (score y) then y :: insert_desc x l' else x :: l
  end.

(** [sorted(board, key=lambda x: x["score"], reverse=True)]: the stable sort
    by decreasing score. *)
Definition sorted_by_score_desc (board : list entry) : list entry :=
  fold_right insert_desc [] board.

(** [board.append(e)] followed by the re-sort. *)
Definition append_entry (board : list entry) (e : entry) : list entry :=
  sorted_by_score_desc (board ++ [e]).

(** [next(i for i, e in enumerate(board) if e["name"] == selected_name)] *)
Fixpoint find_index (board : list entry) (selected_name : string)
  : result nat :=
  match board with
  | [] => Raise StopIteration
  | e :: rest =>
      if String.eqb (name e) selected_name then Ok O
      else i <- find_index rest selected_name ;; Ok (S i)
  end.

(** [board[index]["name"] = new_name] *)
Fixpoint rename_at (index : nat) (new_name : string) (board : list entry)
  : result (list entry) :=
  match board, index with
  | [], _ => Raise IndexError
  | e :: rest, O => Ok (set_name new_name e :: rest)
  | e :: rest, S i => rest' <- rename_at i new_name rest ;; Ok (e :: rest')
  end.

(** [board.pop(index)] *)
Fixpoint pop_at (index : nat) (board : list entry) : result (list entry) :=
  match board, index with
  | [], _ => Raise IndexError
  | e :: rest, O => Ok rest
  | e :: rest, S i => rest' <- pop_at i rest ;; Ok (e :: rest')
  end.

(** The admin controls: the entry is looked up by the selected name. *)
Definition update_name (board : list entry) (selected_name new_name : string)
  : result (list entry) :=
  index <- find_index board selected_name ;;
  rename_at index new_name board.

Definition delete_entry (board : list entry) (selected_name : string)
  : result (list entry) :=
  index <- find_index board selected_name ;;
  pop_at index board.

(** Sorted by score, highest first. *)
Definition sorted_desc (board : list entry) : Prop :=
  StronglySorted (fun a b => score b <= score a) board.

Definition has_score (s : R) (e : entry) : bool :=
  if Req_dec_T (score e) s then true else false.

End Leaderboard.

(** ** The [csv] module, default dialect

    The writer and the reader of CPython's [_csv] module with the settings
    the program leaves at their defaults: the delimiter is the comma, the
    quote character the double quote, [doublequote=True], the line
    terminator is CR LF, [quoting=QUOTE_MINIMAL], no escape character, not
    strict.  The file is opened with an empty [newline] on both sides, so
    the writer's line endings reach the file and the reader untranslated. *)

Module Csv.

Local Open Scope char_scope.

Definition delimiter : ascii := ",".
Definition quotechar : ascii := "034".
Definition CR : ascii := "013".
Definition LF : ascii := "010".

(** [csv.field_size_limit()] *)
Definition field_limit : N := 131072.

(** *** Writer *)

(** The characters that make the writer quote a field. *)
Definition is_special (c : ascii) : bool :=
  (c =? delimiter) || (c =? quotechar) || (c =? CR) || (c =? LF).

Fixpoint want_quote (field : string) : bool :=
  match field with
  | EmptyString => false
  | String c rest => is_special c || want_quote rest
  end.

(** The field's characters, each quote character doubled. *)
Fixpoint escape (field : string) : string :=
  match field with
  | EmptyString => EmptyString
  | String c rest =>
      if c =? quotechar then String c (String c (escape rest))
      else String c (escape rest)
  end.

Definition join_append (field : string) : string :=
  let data := escape field in
  if want_quote field
  then String quotechar (data ++ String quotechar EmptyString)%string
  else data.

(** [writer.writerow(fields)], every field already a string: the text
    written to the file. *)
Definition writerow (fields : list string) : string :=
  let rec := String.concat (String delimiter EmptyString)
                           (map join_append fields) in
  let rec :=
    if negb (Nat.eqb (List.length fields) 0) && Text.is_empty rec
    then String quotechar (String quotechar EmptyString)
    else rec in
  (rec ++ String CR (String LF EmptyString))%string.

(** *** Lines of a file opened with [newline='']

    A line ends after LF, after CR LF, or after a CR that no LF follows; the
    line keeps its ending.  [cur] is the line being read. *)
Fixpoint lines_from (cur : string) (s : string) : list string :=
  match s with
  | EmptyString => Text.flush cur
  | String c s' =>
      let cur' := (cur ++ String c EmptyString)%string in
      if c =? LF then cur' :: lines_from EmptyString s'
      else if c =? CR then
        match s' with
        | String c2 s'' =>
            if c2 =? LF
            then (cur' ++ String c2 EmptyString)%string :: lines_from EmptyString s''
            else cur' :: lines_from EmptyString s'
        | EmptyString => cur' :: lines_from EmptyString s'
        end
      else lines_from cur' s'
  end.

Definition file_lines (text : string) : list string :=
  lines_from EmptyString text.

(** *** Reader *)

Inductive ParserState : Set :=
| START_RECORD
| START_FIELD
| IN_FIELD
| IN_QUOTED_FIELD
| QUOTE_IN_QUOTED_FIELD
| EAT_CRNL.

Record ReaderObj : Type := mk_reader {
  state : ParserState;
  fields : list string;
  field : string
}.

Definition set_state (s : ParserState) (r : ReaderObj) : ReaderObj :=
  {| state := s; fields := fields r; field := field r |}.

Definition parse_reset : ReaderObj :=
  {| state := START_RECORD; fields := []; field := EmptyString |}.

Definition parse_save_field (r : ReaderObj) : ReaderObj :=
  {| state := state r;
     fields := fields r ++ [field r];
     field := EmptyString |}.

Definition parse_add_char (r : ReaderObj) (c : ascii) : result ReaderObj :=
  if (field_limit <=? N.of_nat (String.length (field r)))%N
  then Raise CsvError
  else Ok {| state := state r;
             fields := fields r;
             field := (field r ++ String c EmptyString)%string |}.

Definition is_newline (c : ascii) : bool := (c =? LF) || (c =? CR).

(** The next state after a field ended at [c]. *)
Definition after_field (c : option ascii) : ParserState :=
  match c with
  | None => START_RECORD
  | Some _ => EAT_CRNL
  end.

Definition is_eol_or_newline (c : option ascii) : bool :=
  match c with
  | None => true
  | Some ch => is_newline ch
  end.

Definition is_char (c : option ascii) (x : ascii) : bool :=
  match c with
  | None => false
  | Some ch => ch =? x
  end.

(** Case [START_FIELD] of [parse_process_char]. *)
Definition process_start_field (r : ReaderObj) (c : option ascii)
  : result ReaderObj :=
  if is_eol_or_newline c then
    Ok (set_state (after_field c) (parse_save_field r))
  else if is_char c quotechar then Ok (set_state IN_QUOTED_FIELD r)
  else if is_char c delimiter then Ok (parse_save_field r)
  else
    match c with
    | Some ch => r' <- parse_add_char r ch ;; Ok (set_state IN_FIELD r')
    | None => Ok r
    end.

(** [parse_process_char]; [None] is the end-of-line mark the reader feeds
    after the last character of each line. *)
Definition parse_process_char (r : ReaderObj) (c : option ascii)
  : result ReaderObj :=
  match state r with
  | START_RECORD =>
      match c with
      | None => Ok r
      | Some ch =>
          if is_newline ch then Ok (set_state EAT_CRNL r)
          else process_start_field (set_state START_FIELD r) c
      end
  | START_FIELD => process_start_field r c
  | IN_FIELD =>
      if is_eol_or_newline c then
        Ok (set_state (after_field c) (parse_save_field r))
      else if is_char c delimiter then
        Ok (set_state START_FIELD (parse_save_field r))
      else
        match c with
        | Some ch => parse_add_char r ch
        | None => Ok r
        end
  | IN_QUOTED_FIELD =>
      match c with
      | None => Ok r
      | Some ch =>
          if ch =? quotechar then Ok (set_state QUOTE_IN_QUOTED_FIELD r)
          else parse_add_char r ch
      end
  | QUOTE_IN_QUOTED_FIELD =>
      if is_char c quotechar then
        match c with
        | Some ch => r' <- parse_add_char r ch ;; Ok (set_state IN_QUOTED_FIELD r')
        | None => Ok r
        end
      else if is_char c delimiter then
        Ok (set_state START_FIELD (parse_save_field r))
      else if is_eol_or_newline c then
        Ok (set_state (after_field c) (parse_save_field r))
      else
        match c with
        | Some ch => r' <- parse_add_char r ch ;; Ok (set_state IN_FIELD r')
        | None => Ok r
        end
  | EAT_CRNL =>
      match c with
      | None => Ok (set_state START_RECORD r)
      | Some ch => if is_newline ch then Ok r else Raise CsvError
      end
  end.

Fixpoint feed_chars (r : ReaderObj) (s : string) : result ReaderObj :=
  match s with
  | EmptyString => Ok r
  | String c rest => r' <- parse_process_char r (Some c) ;; feed_chars r' rest
  end.

(** One line: its characters, then the end-of-line mark. *)
Definition feed_line (r : ReaderObj) (line : string) : result ReaderObj :=
  r' <- feed_chars r line ;; parse_process_char r' None.

Definition in_quoted_field (r : ReaderObj) : bool :=
  match state r with
  | IN_QUOTED_FIELD => true
  | _ => false
  end.

Definition at_start_record (r : ReaderObj) : bool :=
  match state r with
  | START_RECORD => true
  | _ => false
  end.

(** The rows the reader yields, in order, and the exception that ends the
    iteration if there is one.  A row is complete when a line leaves the
    parser in [START_RECORD]; otherwise the next line continues the row.
    At the end of the input a row in progress is yielded if its last field
    is not empty or a quoted field is open. *)
Fixpoint read_rows (r : ReaderObj) (lines : list string)
  : list (list string) * option exn :=
  match lines with
  | [] =>
      if negb (Text.is_empty (field r)) || in_quoted_field r
      then ([fields (parse_save_field r)], None)
      else ([], None)
  | line :: rest =>
      match feed_line r line with
      | Raise e => ([], Some e)
      | Ok r' =>
          if at_start_record r' then
            let (rows, err) := read_rows parse_reset rest in
            (fields r' :: rows, err)
          else read_rows r' rest
      end
  end.

(** [csv.reader(f)] over the whole file. *)
Definition reader (text : string) : list (list string) * option exn :=
  read_rows parse_reset (file_lines text).

End Csv.

(** ** Persistence and the form handlers *)

Module App.

Import Leaderboard.

Section Persistence.

(** [str(x)] for a float, as the csv writer writes it. *)
Variable float_repr : R -> string.

(** [float(s)]; [None] is [ValueError]. *)
Variable python_float : string -> option R.

Definition entry_row (e : entry) : list string :=
  [name e; float_repr (score e); timestamp e].

(** The text [save_leaderboard] leaves in the file. *)
Definition save_leaderboard (board : list entry) : string :=
  String.concat EmptyString (map (fun e => Csv.writerow (entry_row e)) board).

(** The body of the loop of [load_leaderboard]. *)
Definition load_row (data : list entry) (row : list string)
  : result (list entry) :=
  match row with
  | [name; score; timestamp] =>
      match python_float score with
      | Some x => Ok (data ++ [mk_entry name x timestamp])
      | None => Raise ValueError
      end
  | _ => Raise ValueError
  end.

(** [load_leaderboard()]; [file] is the content of the CSV file, [None] when
    it does not exist. *)
Definition load_leaderboard (file : option string) : result (list entry) :=
  match file with
  | None => Ok []
  | Some text =>
      let (rows, err) := Csv.reader text in
      data <- for_each rows load_row [] ;;
      match err with
      | Some e => Raise e
      | None => Ok data
      end
  end.

(** The session's leaderboard and the CSV file. *)
Record app_state : Type := mk_state {
  leaderboard : list entry;
  csv_file : option string
}.

(** The first run of a session loads the leaderboard from the file. *)
Definition start_session (file : option string) : result app_state :=
  board <- load_leaderboard file ;;
  Ok {| leaderboard := board; csv_file := file |}.

Inductive validation_error : Set :=
| PleaseEnterName
| AtLeastFiveNumbers.

Inductive outcome : Type :=
| Scored (score : R) (observed : list R)
| Stopped (msg : validation_error)
| Crashed (e : exn)
| Saved.

(** [c / total] *)
Definition truediv (c total : Z) : result R :=
  if (total =? 0)%Z then Raise ZeroDivisionError
  else Ok (IZR c / IZR total)%R.

(** [[c/total for c in counts]] *)
Definition observed_of (counts : list Z) (total : Z) : result (list R) :=
  for_each counts (fun acc c => x <- truediv c total ;; Ok (acc ++ [x])) [].

(** What the submit handler computes before it touches the leaderboard. *)
Definition score_dataset (numbers : list string) : result (R * list R) :=
  counts <- Text.count_first_digits numbers ;;
  let total := Text.sum counts in
  observed <- observed_of counts total ;;
  score <- Scorer.chi_square_score counts Scorer.BENFORD total ;;
  Ok (score, observed).

(** The submit handler; [now] is the formatted current time. *)
Definition submit (username data_input now : string) (st : app_state)
  : outcome * app_state :=
  if Text.is_empty (Text.strip username) then (Stopped PleaseEnterName, st)
  else
    let numbers := Text.findall_digits data_input in
    if (List.length numbers <? 5)%nat then (Stopped AtLeastFiveNumbers, st)
    else
      match score_dataset numbers with
      | Raise e => (Crashed e, st)
      | Ok (score, observed) =>
          let board :=
            append_entry (leaderboard st) (mk_entry username score now) in
          (Scored score observed,
           {| leaderboard := board;
              csv_file := Some (save_leaderboard board) |})
      end.

(** The two admin buttons. *)
Definition click_update (selected_name new_name : string) (st : app_state)
  : outcome * app_state :=
  match update_name (leaderboard st) selected_name new_name with
  | Raise e => (Crashed e, st)
  | Ok board =>
      (Saved, {| leaderboard := board;
                 csv_file := Some (save_leaderboard board) |})
  end.

Definition click_delete (selected_name : string) (st : app_state)
  : outcome * app_state :=
  match delete_entry (leaderboard st) selected_name with
  | Raise e => (Crashed e, st)
  | Ok board =>
      (Saved, {| leaderboard := board;
                 csv_file := Some (save_leaderboard board) |})
  end.

End Persistence.

(** A mutation of the leaderboard. *)
Inductive mutation : Type :=
| Append (e : entry)
| Update (selected_name new_name : string)
| Delete (selected_name : string).

(** The leaderboard after a mutation; a mutation that raises leaves it as it
    was. *)
Definition keep_on_raise (board : list entry) (r : result (list entry))
  : list entry :=
  match r with
  | Ok board' => board'
  | Raise _ => board
  end.

Definition mutate (board : list entry) (m : mutation) : list entry :=
  match m with
  | Append e => append_entry board e
  | Update selected_name new_name =>
      keep_on_raise board (update_name board selected_name new_name)
  | Delete selected_name =>
      keep_on_raise board (delete_entry board selected_name)
  end.

Definition mutate_all (board : list entry) (ms : list mutation) : list entry :=
  fold_left mutate ms board.

End App.

(** ** The specification's wording

    Definitions that follow the words of the specification; the theorems
    compare them with the definitions above. *)

Module Spec.

Import Leaderboard App.

(** The character of the digit [d]. *)
Definition digit_char (d : nat) : ascii := ascii_of_nat (48 + d).

Definition leading_digit_is (d : nat) (run : string) : bool :=
  match run with
  | EmptyString => false
  | String c _ => Ascii.eqb c (digit_char d)
  end.

(** The number of runs whose first character is the digit [d]. *)
Definition count_leading (d : nat) (runs : list string) : Z :=
  Z.of_nat (List.length (filter (leading_digit_is d) runs)).

(** Bucket [d - 1] counts the runs that begin with the digit [d]. *)
Definition histogram_spec (runs : list string) : list Z :=
  map (fun d => count_leading d runs) [1; 2; 3; 4; 5; 6; 7; 8; 9]%nat.

(** The sum of two histograms, bucket by bucket. *)
Definition add_counts (xs ys : list Z) : list Z :=
  map (fun p => (fst p + snd p)%Z) (combine xs ys).

(** A valid token: its first character is not the digit zero. *)
Definition valid_token (run : string) : bool :=
  match run with
  | EmptyString => false
  | String c _ => negb (Ascii.eqb c "0")
  end.

Definition starts_with_digit (run : string) : bool :=
  match run with
  | EmptyString => false
  | String c _ => Text.is_digit c
  end.

Fixpoint all_digits (s : string) : bool :=
  match s with
  | EmptyString => true
  | String c s' => Text.is_digit c && all_digits s'
  end.

Fixpoint no_digits (s : string) : bool :=
  match s with
  | EmptyString => true
  | String c s' => negb (Text.is_digit c) && no_digits s'
  end.

(** [digit_runs text runs]: [runs] are the contiguous runs of digits of
    [text], in order; each run is preceded by text without digits and is
    followed by the end of the text or by a character that is not a digit. *)
Inductive digit_runs : string -> list string -> Prop :=
| runs_done s : no_digits s = true -> digit_runs s []
| runs_next pre run rest runs :
    no_digits pre = true ->
    all_digits run = true -> run <> EmptyString ->
    starts_with_digit rest = false ->
    digit_runs rest runs ->
    digit_runs (pre ++ run ++ rest)%string (run :: runs).

(** Empty or made of whitespace only. *)
Fixpoint whitespace_only (s : string) : bool :=
  match s with
  | EmptyString => true
  | String c s' => Text.is_space c && whitespace_only s'
  end.

(** What a mutation may do to the order of the entries: an append yields a
    permutation in which the entries of each score keep their order, the new
    entry last among them; a rename moves nothing; a delete removes one entry
    and moves nothing. *)
Definition order_kept (board : list entry) (m : mutation) (board' : list entry)
  : Prop :=
  match m with
  | Append e =>
      Permutation board' (board ++ [e]) /\
      forall s, filter (has_score s) board' = filter (has_score s) (board ++ [e])
  | Update _ _ =>
      map score board' = map score board /\
      map timestamp board' = map timestamp board
  | Delete _ =>
      board' = board \/
      exists pre e post, board = pre ++ e :: post /\ board' = pre ++ post
  end.

(** The character occurs in the text. *)
Fixpoint contains (c : ascii) (s : string) : bool :=
  match s with
  | EmptyString => false
  | String x s' => Ascii.eqb x c || contains c s'
  end.

(** The field is within the reader's field size limit. *)
Definition fits (f : string) : Prop :=
  (N.of_nat (String.length f) <= Csv.field_limit)%N.

(** A row of three fields, each within the size limit. *)
Definition three_fields (row : list string) : Prop :=
  exists a b c, row = [a; b; c] /\ fits a /\ fits b /\ fits c.

(** An entry the file can hold: every field within the size limit, and
    [float] reads back the text [str] writes for the score. *)
Definition loadable (float_repr : R -> string)
    (python_float : string -> option R) (e : entry) : Prop :=
  fits (name e) /\ fits (float_repr (score e)) /\ fits (timestamp e) /\
  python_float (float_repr (score e)) = Some (score e).

(** The row is the text of the entry. *)
Definition row_of (python_float : string -> option R) (row : list string)
    (e : entry) : Prop :=
  exists s, row = [name e; s; timestamp e] /\ python_float s = Some (score e).

End Spec.

(** ** Positions of the reader in a text *)

Module ReaderInv.

Import Csv.

(** The reader started the current line in [r_line], has read [cur] of it,
    and is now in [r]. *)
Definition continues (r_line : ReaderObj) (cur : string) (r : ReaderObj) : Prop :=
  feed_chars r_line cur = Ok r.

(** Reading [piece] takes the reader from one position to another, whatever
    follows. *)
Definition advances (r_line : ReaderObj) (cur : string) (piece : string)
    (r_line' : ReaderObj) (cur' : string) : Prop :=
  forall tail,
    read_rows r_line (lines_from cur (piece ++ tail)%string) =
    read_rows r_line' (lines_from cur' tail).

(** The reader stands at the start of a field. *)
Definition at_field_start (r : ReaderObj) : Prop :=
  (state r = START_RECORD \/ state r = START_FIELD) /\ field r = EmptyString.

(** The reader, which was in [r0] at the start of the field, has read the
    field [f] and not yet what follows it. *)
Definition field_read (r0 r : ReaderObj) (f : string) : Prop :=
  fields r = fields r0 /\ field r = f /\
  (state r = IN_FIELD \/ state r = QUOTE_IN_QUOTED_FIELD \/
   (state r = state r0 /\ f = EmptyString)).

End ReaderInv.

(** ** Sample float texts

    [str] and [float] on the few scores the examples use. *)

Module Samples.

Local Open Scope string_scope.

Definition float_texts : list (string * R) :=
  [("88.1", 88.1%R); ("70.3", 70.3%R); ("50.0", 50%R); ("0.0", 0%R)].

Definition sample_float (s : string) : option R :=
  option_map snd (find (fun p => String.eqb (fst p) s) float_texts).

Definition sample_repr (x : R) : string :=
  match find (fun p => if Req_dec_T (snd p) x then true else false) float_texts with
  | Some p => fst p
  | None => "nan"
  end.

(** A dataset of [n] numbers that all begin with 9. *)
Definition nines (n : nat) : string := String.concat " " (repeat "9" n).

(** A name of [n + 1] characters: a comma, then [n] letters. *)
Fixpoint letters (n : nat) : string :=
  match n with
  | O => EmptyString
  | S n' => String "a"%char (letters n')
  end.

Definition long_name (n : nat) : string := String Csv.delimiter (letters n).

End Samples.

(** ** Feedback *)

Module Feedback.

Local Open Scope R_scope.

(** The four messages of [feedback], best first. *)
Inductive message : Set :=
| Excellent
| Good
| Biased
| HumanMade.

Definition feedback (score : R) : message :=
  if Rle_dec 85 score then Excellent
  else if Rle_dec 60 score then Good
  else if Rle_dec 30 score then Biased
  else HumanMade.

(** The condition of [st.balloons()] in the submit handler. *)
Definition balloons (score : R) : bool :=
  if Rle_dec 85 score then true else false.

End Feedback.

(** ** Measures used in the statements *)

Module Measures.

Import Leaderboard App Feedback.

Local Open Scope R_scope.

(** How good a message is. *)
Definition grade (m : message) : nat :=
  match m with
  | HumanMade => 0
  | Biased => 1
  | Good => 2
  | Excellent => 3
  end.

(** The sum of a list of numbers. *)
Definition total_of (l : list R) : R := fold_right Rplus 0 l.

(** The term of the statistic for one digit. *)
Definition chi_contribution (O : Z) (b : R) (total : Z) : R :=
  (IZR O - b * IZR total) ^ 2 / (b * IZR total).

(** The file holds what [save_leaderboard] writes for the leaderboard in
    memory. *)
Definition in_sync (float_repr : R -> string) (st : app_state) : Prop :=
  csv_file st = Some (save_leaderboard float_repr (leaderboard st)).

(** Entries with a score of at least [s], and entries with a lower one. *)
Definition at_least (s : R) (e : entry) : bool :=
  if Rle_dec s (score e) then true else false.

Definition below (s : R) (e : entry) : bool :=
  if Rlt_dec (score e) s then true else false.

(** The states a session reaches by its three buttons from a first run,
    when there is no file yet. *)
Inductive reachable (float_repr : R -> string) : app_state -> Prop :=
| reach_first_run :
    reachable float_repr {| leaderboard := []; csv_file := None |}
| reach_submit st username data_input now :
    reachable float_repr st ->
    reachable float_repr (snd (submit float_repr username data_input now st))
| reach_update st selected_name new_name :
    reachable float_repr st ->
    reachable float_repr
      (snd (click_update float_repr selected_name new_name st))
| reach_delete st selected_name :
    reachable float_repr st ->
    reachable float_repr (snd (click_delete float_repr selected_name st)).

End Measures.

(** ** Lines of a file *)

Module Lines.

(** No character of the text is a line break. *)
Fixpoint no_newlines (s : string) : bool :=
  match s with
  | EmptyString => true
  | String c s' => negb (Csv.is_newline c) && no_newlines s'
  end.

(** Every character of the text is a line break. *)
Fixpoint only_newlines (s : string) : bool :=
  match s with
  | EmptyString => true
  | String c s' => Csv.is_newline c && only_newlines s'
  end.

(** A line as the file yields it: text without line breaks, then its
    ending. *)
Definition line_ok (line : string) : Prop :=
  exists body ending,
    line = (body ++ ending)%string /\
    no_newlines body = true /\ only_newlines ending = true.

(** The number of characters of the lines. *)
Definition chars_of (lines : list string) : nat :=
  fold_right (fun line n => String.length line + n) 0 lines.

End Lines.

(** * Properties *)

Import Scorer Text Leaderboard Csv App Spec ReaderInv Samples.

(** ** Loops and results *)

Lemma for_each_invariant {A S : Type} (P : S -> Prop)
    (body : S -> A -> result S) (xs : list A) :
  (forall s x s', P s -> body s x = Ok s' -> P s') ->
  forall s r, P s -> for_each xs body s = Ok r -> P r.
Proof.
  intros Hstep. induction xs as [| x xs IH]; intros s r Hs Hrun; simpl in Hrun.
  - now inversion Hrun; subst.
  - destruct (body s x) as [s' |] eqn:Hb; simpl in Hrun; [| discriminate].
    eapply IH; [| exact Hrun]. eapply Hstep; eauto.
Qed.

(** ** Rounding and the scoring curve *)

Section ScoringCurve.

Local Open Scope R_scope.

Lemma frac_part_range (y : R) : 0 <= frac_part y < 1.
Proof. destruct (base_fp y) as [H1 H2]. lra. Qed.

Lemma round_half_even_near (y : R) :
  IZR (round_half_even y) - 1 / 2 <= y <= IZR (round_half_even y) + 1 / 2.
Proof.
  unfold round_half_even.
  pose proof (frac_part_range y) as Hf.
  assert (Hy : y = IZR (Int_part y) + frac_part y) by (unfold frac_part; lra).
  destruct (Rlt_dec (frac_part y) (1 / 2)) as [Hlo | Hlo].
  - lra.
  - destruct (Rlt_dec (1 / 2) (frac_part y)) as [Hhi | Hhi].
    + rewrite plus_IZR. lra.
    + destruct (Z.even (Int_part y)); [| rewrite plus_IZR]; lra.
Qed.

Lemma round_half_even_unique (y : R) (n : Z) :
  IZR n - 1 / 2 < y < IZR n + 1 / 2 -> round_half_even y = n.
Proof.
  intros Hn.
  pose proof (round_half_even_near y) as Hr.
  assert (H1 : (n - 1 < round_half_even y)%Z).
  { apply lt_IZR. rewrite minus_IZR. lra. }
  assert (H2 : (round_half_even y < n + 1)%Z).
  { apply lt_IZR. rewrite plus_IZR. lra. }
  lia.
Qed.

Lemma round_half_even_IZR (n : Z) : round_half_even (IZR n) = n.
Proof. apply round_half_even_unique. lra. Qed.

Lemma round_half_even_mono (x y : R) :
  x <= y -> (round_half_even x <= round_half_even y)%Z.
Proof.
  intros Hxy.
  destruct (Z_le_gt_dec (round_half_even x) (round_half_even y)) as [Hle | Hgt];
    [exact Hle | exfalso].
  pose proof (round_half_even_near x) as Hx.
  pose proof (round_half_even_near y) as Hy.
  assert (H1 : IZR (round_half_even y) + 1 <= IZR (round_half_even x)).
  { rewrite <- plus_IZR. apply IZR_le. lia. }
  assert (Heq : x = y) by lra.
  subst y. lia.
Qed.

Lemma py_round1_mono (x y : R) : x <= y -> py_round1 x <= py_round1 y.
Proof.
  intros Hxy. unfold py_round1.
  assert (H : IZR (round_half_even (x * 10)) <= IZR (round_half_even (y * 10))).
  { apply IZR_le, round_half_even_mono. lra. }
  lra.
Qed.

Lemma py_round1_range (x : R) : 0 <= x <= 100 -> 0 <= py_round1 x <= 100.
Proof.
  intros [H0 H100]. unfold py_round1.
  assert (Hlo : (0 <= round_half_even (x * 10))%Z).
  { rewrite <- (round_half_even_IZR 0). apply round_half_even_mono. lra. }
  assert (Hhi : (round_half_even (x * 10) <= 1000)%Z).
  { rewrite <- (round_half_even_IZR 1000). apply round_half_even_mono. lra. }
  apply IZR_le in Hlo, Hhi. lra.
Qed.

Lemma logistic_range (e : R) : 0 < e -> 0 < 100 / (1 + e) < 100.
Proof.
  intros He.
  assert (Hpos : 0 < / (1 + e)) by (apply Rinv_0_lt_compat; lra).
  assert (Hlt : / (1 + e) < 1).
  { rewrite <- Rinv_1 at 2. apply Rinv_lt_contravar; lra. }
  unfold Rdiv. lra.
Qed.

Lemma logistic_antitone (e1 e2 : R) :
  0 < e2 -> e2 <= e1 -> 100 / (1 + e1) <= 100 / (1 + e2).
Proof.
  intros H2 Hle. unfold Rdiv.
  apply Rmult_le_compat_l; [lra |].
  apply Rinv_le_contravar; lra.
Qed.

(** *** Bounds on the exponential *)

Lemma exp_mult_nat (x : R) (n : nat) : exp (INR n * x) = exp x ^ n.
Proof.
  induction n as [| n IH].
  - simpl. rewrite Rmult_0_l. apply exp_0.
  - rewrite S_INR, Rmult_plus_distr_r, Rmult_1_l, exp_plus, IH. simpl. ring.
Qed.

Lemma exp_le_compat (x y : R) : x <= y -> exp x <= exp y.
Proof.
  intros Hxy. destruct (Rle_lt_or_eq_dec _ _ Hxy) as [Hlt | Heq].
  - left. now apply exp_increasing.
  - rewrite Heq. apply Rle_refl.
Qed.

Lemma exp_ge_pow2 (n : nat) (x : R) : INR n <= x -> 2 ^ n <= exp x.
Proof.
  intros Hx.
  apply Rle_trans with (exp (INR n)); [| now apply exp_le_compat].
  replace (INR n) with (INR n * 1) by ring.
  rewrite exp_mult_nat. apply pow_incr.
  pose proof (exp_ineq1_le 1). lra.
Qed.

Lemma exp_le_pow3 (n : nat) (x : R) : x <= INR n -> exp x <= 3 ^ n.
Proof.
  intros Hx.
  apply Rle_trans with (exp (INR n)); [now apply exp_le_compat |].
  replace (INR n) with (INR n * 1) by ring.
  rewrite exp_mult_nat. apply pow_incr.
  split; [left; apply exp_pos | apply exp_le_3].
Qed.

Lemma ratio_pow_lt (a b p q : Z) (n : nat) :
  (0 < b)%Z -> (0 < q)%Z ->
  (p * b ^ Z.of_nat n < a ^ Z.of_nat n * q)%Z ->
  IZR p / IZR q < (IZR a / IZR b) ^ n.
Proof.
  intros Hb Hq H.
  assert (Hb' : 0 < IZR b) by now apply IZR_lt.
  assert (Hq' : 0 < IZR q) by now apply IZR_lt.
  assert (Hbn : 0 < IZR b ^ n) by now apply pow_lt.
  apply IZR_lt in H. rewrite !mult_IZR, <- !pow_IZR in H.
  unfold Rdiv at 2. rewrite Rpow_mult_distr, pow_inv.
  apply Rmult_lt_reg_r with (IZR q * IZR b ^ n).
  - now apply Rmult_lt_0_compat.
  - field_simplify; lra.
Qed.

Lemma exp_minus_2_lower : 0.135 < exp (-2).
Proof.
  replace (-2) with (INR 2048 * (- / 1024)).
  2:{ rewrite INR_IZR_INZ. simpl. lra. }
  rewrite exp_mult_nat.
  apply Rlt_le_trans with ((IZR 1023 / IZR 1024) ^ 2048).
  - replace 0.135 with (IZR 135 / IZR 1000) by lra.
    apply ratio_pow_lt; [lia | lia | vm_compute; reflexivity].
  - apply pow_incr. split; [lra |].
    pose proof (exp_ineq1_le (- / 1024)). lra.
Qed.

Lemma exp_2_lower : 7.3801 < exp 2.
Proof.
  replace 2 with (INR 2048 * (/ 1024)) at 1.
  2:{ rewrite INR_IZR_INZ. simpl. lra. }
  rewrite exp_mult_nat.
  apply Rlt_le_trans with ((IZR 1025 / IZR 1024) ^ 2048).
  - replace 7.3801 with (IZR 73801 / IZR 10000) by lra.
    apply ratio_pow_lt; [lia | lia | vm_compute; reflexivity].
  - apply pow_incr. split; [lra |].
    pose proof (exp_ineq1_le (/ 1024)). lra.
Qed.

Lemma exp_minus_2_upper : exp (-2) < 0.1355.
Proof.
  replace (IZR (-2)) with (Ropp 2) by lra.
  rewrite exp_Ropp.
  pose proof exp_2_lower as H.
  assert (Hpos : 0 < exp 2) by apply exp_pos.
  apply Rmult_lt_reg_r with (exp 2); [exact Hpos |].
  rewrite Rinv_l by lra. lra.
Qed.

End ScoringCurve.

(** ** The scorer *)

Section ScorerFacts.

Local Open Scope R_scope.

Lemma chi_term_increases counts benford total s i s' :
  chi_term counts benford total s i = Ok s' -> s <= s'.
Proof.
  unfold chi_term.
  destruct (getitem counts i) as [O |]; simpl; [| discriminate].
  destruct (getitem benford i) as [b |]; simpl; [| discriminate].
  destruct (Rlt_dec 0 (b * IZR total)) as [Hpos | Hneg]; intros H;
    inversion H; subst; [| lra].
  assert (0 <= (IZR O - b * IZR total) ^ 2 / (b * IZR total)).
  { apply Rmult_le_pos; [apply pow2_ge_0 | left; now apply Rinv_0_lt_compat]. }
  lra.
Qed.

Lemma chi_square_nonneg counts benford total chi_sq :
  chi_square counts benford total = Ok chi_sq -> 0 <= chi_sq.
Proof.
  unfold chi_square.
  apply (for_each_invariant (fun s => 0 <= s)); [| lra].
  intros s x s' Hs Hb. apply chi_term_increases in Hb. lra.
Qed.

Lemma chi_term_exact counts benford total s i O b :
  getitem counts i = Ok O -> getitem benford i = Ok b ->
  IZR O = b * IZR total ->
  chi_term counts benford total s i = Ok s.
Proof.
  intros HO Hb Heq. unfold chi_term. rewrite HO, Hb. cbn [bind].
  rewrite Heq. set (E := b * IZR total).
  destruct (Rlt_dec 0 E); [| reflexivity].
  f_equal. field. lra.
Qed.

(** A histogram that matches the expected counts has statistic 0. *)
Lemma chi_square_exact counts total :
  Forall2 (fun c b => IZR c = b * IZR total) counts BENFORD ->
  chi_square counts BENFORD total = Ok 0.
Proof.
  unfold BENFORD. intros H.
  repeat match goal with
         | H : Forall2 _ _ (_ :: _) |- _ => inversion H; subst; clear H
         | H : Forall2 _ _ [] |- _ => inversion H; subst; clear H
         end.
  unfold chi_square. cbn [seq for_each].
  repeat (erewrite chi_term_exact by (try reflexivity; eassumption); cbn [bind]).
  reflexivity.
Qed.

Lemma math_exp_Ok x e : math_exp x = Ok e -> e = exp x /\ exp x <= DBL_MAX.
Proof.
  unfold math_exp. destruct (Rle_dec (exp x) DBL_MAX); intros H;
    inversion H; auto.
Qed.

Lemma math_exp_in_range x : exp x <= DBL_MAX -> math_exp x = Ok (exp x).
Proof.
  intros H. unfold math_exp.
  destruct (Rle_dec (exp x) DBL_MAX); [reflexivity | contradiction].
Qed.

Lemma math_exp_overflow x : DBL_MAX < exp x -> math_exp x = Raise OverflowError.
Proof.
  intros H. unfold math_exp.
  destruct (Rle_dec (exp x) DBL_MAX); [lra | reflexivity].
Qed.

Lemma DBL_MAX_lt_pow : DBL_MAX < 2 ^ 1024.
Proof.
  unfold DBL_MAX.
  replace (2 ^ 1024) with (2 ^ 53 * 2 ^ 971) by (rewrite <- pow_add; reflexivity).
  assert (0 < 2 ^ 971) by (apply pow_lt; lra).
  nra.
Qed.

Lemma one_le_DBL_MAX : 1 <= DBL_MAX.
Proof.
  unfold DBL_MAX.
  assert (H1 : 1 <= 2 ^ 971) by (apply pow_R1_Rle; lra).
  assert (H2 : 2 <= 2 ^ 53 - 1).
  { assert (2 ^ 2 <= 2 ^ 53) by (apply Rle_pow; [lra | lia]). lra. }
  nra.
Qed.

(** No overflow where the statistic is at most the midpoint. *)
Lemma math_exp_below_mid chi_sq :
  chi_sq <= mid -> math_exp (k * (chi_sq - mid)) = Ok (exp (k * (chi_sq - mid))).
Proof.
  intros Hle. apply math_exp_in_range.
  apply Rle_trans with (3 ^ 0); [| simpl; apply one_le_DBL_MAX].
  apply exp_le_pow3. simpl. unfold k. lra.
Qed.

(** The score, when one is returned, lies between 0 and 100. *)
Lemma score_of_chi_sq_range chi_sq s :
  score_of_chi_sq chi_sq = Ok s -> 0 <= s <= 100.
Proof.
  unfold score_of_chi_sq.
  destruct (math_exp (k * (chi_sq - mid))) as [e |] eqn:He; simpl; [| discriminate].
  intros H; inversion H; subst.
  apply math_exp_Ok in He as [-> _].
  apply py_round1_range.
  pose proof (logistic_range _ (exp_pos (k * (chi_sq - mid)))). lra.
Qed.

Lemma chi_square_score_range counts benford total s :
  chi_square_score counts benford total = Ok s -> 0 <= s <= 100.
Proof.
  unfold chi_square_score.
  destruct (chi_square counts benford total); simpl; [| discriminate].
  apply score_of_chi_sq_range.
Qed.

Lemma score_of_chi_sq_antitone chi1 chi2 s1 :
  chi2 <= chi1 -> score_of_chi_sq chi1 = Ok s1 ->
  exists s2, score_of_chi_sq chi2 = Ok s2 /\ s1 <= s2.
Proof.
  intros Hle. unfold score_of_chi_sq.
  destruct (math_exp (k * (chi1 - mid))) as [e1 |] eqn:He1; simpl; [| discriminate].
  intros H; inversion H; subst; clear H.
  apply math_exp_Ok in He1 as [-> Hmax].
  assert (Hexp : exp (k * (chi2 - mid)) <= exp (k * (chi1 - mid))).
  { apply exp_le_compat. unfold k. lra. }
  rewrite math_exp_in_range by lra. simpl.
  eexists; split; [reflexivity |].
  apply py_round1_mono, logistic_antitone; [apply exp_pos | exact Hexp].
Qed.

Lemma score_of_zero : score_of_chi_sq 0 = Ok 88.1.
Proof.
  unfold score_of_chi_sq.
  rewrite math_exp_below_mid by (unfold mid; lra).
  replace (k * (0 - mid)) with (-2) by (unfold k, mid; lra).
  pose proof exp_minus_2_lower as Hlo.
  pose proof exp_minus_2_upper as Hhi.
  simpl. f_equal. unfold py_round1.
  rewrite (round_half_even_unique _ 881); [lra |].
  set (e := exp (-2)) in *.
  assert (Hinv : (1 + e) * / (1 + e) = 1) by (apply Rinv_r; lra).
  assert (Hpos : 0 < / (1 + e)) by (apply Rinv_0_lt_compat; lra).
  unfold Rdiv. split; nra.
Qed.

(** With no valid token at all the scorer itself does not divide: every
    expected count is 0 and every term is skipped. *)
Lemma chi_square_score_zero_total :
  chi_square_score (repeat 0%Z 9) BENFORD 0 = Ok 88.1.
Proof.
  unfold chi_square_score. rewrite chi_square_exact.
  - apply score_of_zero.
  - unfold BENFORD. repeat constructor; lra.
Qed.

End ScorerFacts.

(** ** Claims about the score *)

Section ScoreClaims.

Local Open Scope R_scope.

(** Evaluates one iteration of the loop whose expected count is positive. *)
Ltac step_chi :=
  match goal with
  | |- context [Rlt_dec ?a ?b] =>
      destruct (Rlt_dec a b); [| exfalso; lra]; cbn [bind for_each]
  end.

Ltac eval_chi_square :=
  unfold chi_square, BENFORD;
  cbn [seq for_each chi_term getitem nth_error bind];
  repeat step_chi.

(** A thousand numbers that all begin with 9. *)
Lemma chi_square_nines :
  exists chi_sq,
    chi_square [0; 0; 0; 0; 0; 0; 0; 0; 1000]%Z BENFORD 1000 = Ok chi_sq /\
    20000 <= chi_sq.
Proof.
  eval_chi_square. eexists; split; [reflexivity |]. lra.
Qed.

Lemma nines_overflow :
  chi_square_score [0; 0; 0; 0; 0; 0; 0; 0; 1000]%Z BENFORD 1000
  = Raise OverflowError.
Proof.
  destruct chi_square_nines as [chi_sq [Hchi Hbig]].
  unfold chi_square_score. rewrite Hchi. cbn [bind].
  unfold score_of_chi_sq.
  rewrite math_exp_overflow; [reflexivity |].
  apply Rlt_le_trans with (2 ^ 1024); [apply DBL_MAX_lt_pow |].
  apply exp_ge_pow2. rewrite INR_IZR_INZ. simpl. unfold k, mid. lra.
Qed.

(** C5.  A histogram whose counts equal the expected counts has statistic 0
    and score 88.1, which is 100/(1+exp(-2.0)) rounded to one decimal. *)
Theorem exact_match_scores_88_1 (counts : list Z) (total : Z) :
  Forall2 (fun c b => IZR c = b * IZR total) counts BENFORD ->
  chi_square counts BENFORD total = Ok 0 /\
  chi_square_score counts BENFORD total = Ok 88.1 /\
  88.1 = py_round1 (100 / (1 + exp (-2.0))).
Proof.
  intros H. apply chi_square_exact in H. split; [exact H |]. split.
  - unfold chi_square_score. rewrite H. cbn [bind]. apply score_of_zero.
  - pose proof score_of_zero as Hz. unfold score_of_chi_sq in Hz.
    rewrite math_exp_below_mid in Hz by (unfold mid; lra).
    cbn [bind] in Hz.
    replace (k * (0 - mid)) with (-2.0) in Hz by (unfold k, mid; lra).
    now inversion Hz.
Qed.

Lemma exact_match_scores_88_1_witness :
  chi_square_score [301; 176; 125; 97; 79; 67; 58; 51; 46]%Z BENFORD 1000
  = Ok 88.1.
Proof.
  apply (exact_match_scores_88_1 [301; 176; 125; 97; 79; 67; 58; 51; 46]%Z 1000).
  unfold BENFORD. repeat constructor; lra.
Defined.

(** C6.  For two histograms with the same total, the one with the greater
    statistic has the lower score, after rounding: if it gets a score, the
    other gets one too, and that one is at least as high. *)
Theorem score_monotone_in_chi_sq (counts1 counts2 : list Z) (total : Z)
    (chi1 chi2 s1 : R) :
  chi_square counts1 BENFORD total = Ok chi1 ->
  chi_square counts2 BENFORD total = Ok chi2 ->
  chi2 <= chi1 ->
  chi_square_score counts1 BENFORD total = Ok s1 ->
  exists s2, chi_square_score counts2 BENFORD total = Ok s2 /\ s1 <= s2.
Proof.
  unfold chi_square_score. intros H1 H2 Hle. rewrite H1, H2. cbn [bind].
  now apply score_of_chi_sq_antitone.
Qed.

Lemma score_monotone_in_chi_sq_witness :
  exists s1 s2,
    chi_square_score [5; 0; 0; 0; 0; 0; 0; 0; 0]%Z BENFORD 5 = Ok s1 /\
    chi_square_score [2; 1; 0; 0; 0; 0; 1; 0; 1]%Z BENFORD 5 = Ok s2 /\
    s1 <= s2.
Proof.
  assert (H1 : exists chi1,
            chi_square [5; 0; 0; 0; 0; 0; 0; 0; 0]%Z BENFORD 5 = Ok chi1 /\
            11 <= chi1 <= 12).
  { eval_chi_square. eexists; split; [reflexivity |]. lra. }
  assert (H2 : exists chi2,
            chi_square [2; 1; 0; 0; 0; 0; 1; 0; 1]%Z BENFORD 5 = Ok chi2 /\
            chi2 <= 7).
  { eval_chi_square. eexists; split; [reflexivity |]. lra. }
  destruct H1 as (chi1 & Hchi1 & Hb1). destruct H2 as (chi2 & Hchi2 & Hb2).
  assert (Hs1 : chi_square_score [5; 0; 0; 0; 0; 0; 0; 0; 0]%Z BENFORD 5
                = Ok (py_round1 (100 / (1 + exp (k * (chi1 - mid)))))).
  { unfold chi_square_score. rewrite Hchi1. cbn [bind].
    unfold score_of_chi_sq. rewrite math_exp_below_mid by (unfold mid; lra).
    reflexivity. }
  destruct (score_monotone_in_chi_sq
              [5; 0; 0; 0; 0; 0; 0; 0; 0]%Z [2; 1; 0; 0; 0; 0; 1; 0; 1]%Z 5
              chi1 chi2 _ Hchi1 Hchi2 ltac:(lra) Hs1) as (s2 & Hs2 & Hle).
  eexists _, s2. split; [exact Hs1 |]. split; [exact Hs2 | exact Hle].
Defined.

End ScoreClaims.

(** ** Strings *)

Section Strings.

Local Open Scope string_scope.

Lemma append_nil_r (s : string) : (s ++ EmptyString)%string = s.
Proof. induction s as [| c s IH]; simpl; [reflexivity | now rewrite IH]. Qed.

Lemma append_assoc (a b c : string) :
  ((a ++ b) ++ c)%string = (a ++ (b ++ c))%string.
Proof. induction a as [| x a IH]; simpl; [reflexivity | now rewrite IH]. Qed.

Lemma length_append (a b : string) :
  String.length (a ++ b) = (String.length a + String.length b)%nat.
Proof. induction a as [| x a IH]; simpl; [reflexivity | now rewrite IH]. Qed.

Lemma append_nonempty (a : string) (c : ascii) :
  (a ++ String c EmptyString)%string <> EmptyString.
Proof. destruct a; discriminate. Qed.

End Strings.

(** ** Digit runs and the histogram *)

Section Histogram.

Lemma count_token_spec (acc : list Z) (n : string) :
  List.length acc = 9%nat -> starts_with_digit n = true ->
  count_token acc n = Ok (add_counts acc (histogram_spec [n])).
Proof.
  intros Hlen Hd.
  destruct acc as [| a0 [| a1 [| a2 [| a3 [| a4 [| a5 [| a6 [| a7 [| a8 [| ? ?]]]]]]]]]];
    try discriminate.
  destruct n as [| c n']; [discriminate |].
  simpl in Hd.
  destruct c as [[] [] [] [] [] [] [] []]; try discriminate Hd;
    unfold count_token;
    repeat match goal with
           | |- context [int_of_digit ?c] =>
               let v := eval vm_compute in (int_of_digit c) in
               change (int_of_digit c) with v
           | |- context [Z.to_nat ?z] =>
               let v := eval vm_compute in (Z.to_nat z) in
               change (Z.to_nat z) with v
           end;
    cbn; repeat f_equal; lia.
Qed.

Lemma add_counts_length xs ys :
  List.length xs = 9%nat -> List.length ys = 9%nat ->
  List.length (add_counts xs ys) = 9%nat.
Proof.
  intros Hx Hy. unfold add_counts.
  rewrite length_map, length_combine. lia.
Qed.

Lemma histogram_spec_cons n ns :
  histogram_spec (n :: ns) = add_counts (histogram_spec [n]) (histogram_spec ns).
Proof.
  unfold histogram_spec, add_counts, count_leading. cbn [map combine fst snd filter].
  repeat f_equal; destruct (leading_digit_is _ n); cbn [List.length]; lia.
Qed.

Lemma add_counts_assoc xs ys zs :
  add_counts (add_counts xs ys) zs = add_counts xs (add_counts ys zs).
Proof.
  unfold add_counts. revert ys zs.
  induction xs as [| x xs IH]; intros [| y ys] [| z zs]; cbn; try reflexivity.
  rewrite IH. f_equal. lia.
Qed.

Lemma count_loop_spec (numbers : list string) :
  Forall (fun n => starts_with_digit n = true) numbers ->
  forall acc, List.length acc = 9%nat ->
  for_each numbers count_token acc = Ok (add_counts acc (histogram_spec numbers)).
Proof.
  induction 1 as [| n ns Hn Hns IH]; intros acc Hlen.
  - cbn [for_each]. f_equal.
    destruct acc
      as [| a0 [| a1 [| a2 [| a3 [| a4 [| a5 [| a6 [| a7 [| a8 [| ? ?]]]]]]]]]];
      try discriminate.
    cbn. repeat f_equal; lia.
  - cbn [for_each]. rewrite (count_token_spec acc n Hlen Hn). cbn [bind].
    rewrite IH by (apply add_counts_length; [exact Hlen | reflexivity]).
    now rewrite add_counts_assoc, <- histogram_spec_cons.
Qed.

Lemma flush_nonempty cur : cur <> EmptyString -> flush cur = [cur].
Proof. destruct cur; [contradiction | reflexivity]. Qed.

Lemma findall_digits_from_run (s : string) :
  forall cur, cur <> EmptyString ->
  exists d rest,
    s = (d ++ rest)%string /\ all_digits d = true /\
    starts_with_digit rest = false /\
    (String.length rest <= String.length s)%nat /\
    findall_digits_from cur s =
      (cur ++ d)%string :: findall_digits_from EmptyString rest.
Proof.
  induction s as [| c s IH]; intros cur Hcur.
  - exists EmptyString, EmptyString. simpl.
    rewrite append_nil_r, (flush_nonempty _ Hcur). auto.
  - simpl. destruct (is_digit c) eqn:Hc.
    + destruct (IH (cur ++ String c EmptyString)%string (append_nonempty cur c))
        as (d & rest & Hs & Hd & Hrest & Hlen & Hrun).
      exists (String c d), rest. simpl. rewrite Hc, Hd, Hrun, append_assoc. simpl.
      subst s. repeat split; auto.
    + exists EmptyString, (String c s). simpl.
      rewrite Hc, append_nil_r, (flush_nonempty _ Hcur). simpl.
      repeat split; auto.
Qed.

Lemma digit_runs_skip c s runs :
  is_digit c = false -> digit_runs s runs -> digit_runs (String c s) runs.
Proof.
  intros Hc Hruns.
  inversion Hruns as [s0 Hs | pre run rest runs0 Hpre Hrun Hne Hrest Hr]; subst.
  - apply runs_done. simpl. now rewrite Hc.
  - change (String c (pre ++ run ++ rest)) with ((String c pre) ++ run ++ rest)%string.
    apply runs_next; auto. simpl. now rewrite Hc.
Qed.

Lemma findall_digits_runs_bounded (n : nat) :
  forall s, (String.length s <= n)%nat -> digit_runs s (findall_digits s).
Proof.
  induction n as [| n IH]; intros s Hlen.
  - destruct s; [| simpl in Hlen; lia]. now apply runs_done.
  - destruct s as [| c s]; [now apply runs_done |].
    simpl in Hlen. unfold findall_digits. simpl.
    destruct (is_digit c) eqn:Hc.
    + destruct (findall_digits_from_run s (String c EmptyString)) as
        (d & rest & Hs & Hd & Hrest & Hle & Hrun); [discriminate |].
      rewrite Hrun. simpl.
      change (String c s) with (EmptyString ++ String c s)%string.
      subst s.
      change (String c (d ++ rest)) with (String c d ++ rest)%string.
      apply runs_next; auto.
      * simpl. now rewrite Hc.
      * discriminate.
      * apply IH. lia.
    + apply digit_runs_skip; [exact Hc |]. apply IH. lia.
Qed.

Lemma findall_digits_runs (s : string) : digit_runs s (findall_digits s).
Proof. now apply (findall_digits_runs_bounded (String.length s)). Qed.

Lemma digit_runs_start_with_digit s runs :
  digit_runs s runs -> Forall (fun n => starts_with_digit n = true) runs.
Proof.
  induction 1 as [| pre run rest runs Hpre Hrun Hne Hrest Hr IH]; constructor; auto.
  destruct run as [| c run]; [contradiction |].
  simpl in *. now apply andb_true_iff in Hrun.
Qed.

Lemma sum_histogram_spec (runs : list string) :
  Forall (fun n => starts_with_digit n = true) runs ->
  Text.sum (histogram_spec runs) =
  Z.of_nat (List.length (filter valid_token runs)).
Proof.
  induction 1 as [| n ns Hn Hns IH].
  - reflexivity.
  - revert IH. unfold histogram_spec, Text.sum, count_leading.
    cbn [map fold_left filter]. intros IH.
    assert (Hone :
      (Z.of_nat (List.length (filter (leading_digit_is 1) [n])) +
       Z.of_nat (List.length (filter (leading_digit_is 2) [n])) +
       Z.of_nat (List.length (filter (leading_digit_is 3) [n])) +
       Z.of_nat (List.length (filter (leading_digit_is 4) [n])) +
       Z.of_nat (List.length (filter (leading_digit_is 5) [n])) +
       Z.of_nat (List.length (filter (leading_digit_is 6) [n])) +
       Z.of_nat (List.length (filter (leading_digit_is 7) [n])) +
       Z.of_nat (List.length (filter (leading_digit_is 8) [n])) +
       Z.of_nat (List.length (filter (leading_digit_is 9) [n])) =
       Z.of_nat (List.length (filter valid_token [n])))%Z).
    { destruct n as [| c n']; [discriminate |]. simpl in Hn.
      destruct c as [[] [] [] [] [] [] [] []]; try discriminate Hn; reflexivity. }
    revert Hone. cbn [filter].
    destruct (valid_token n);
      repeat match goal with
             | |- context [leading_digit_is ?d n] => destruct (leading_digit_is d n)
             end; cbn [List.length]; lia.
Qed.

End Histogram.

(** ** Claims about the submit handler *)

Section SubmitClaims.

Local Open Scope string_scope.

(** C8.  The tokens are the contiguous digit runs of the text; bucket
    [d - 1] of the histogram counts the runs that begin with the digit [d],
    for [d] from 1 to 9, and the runs that begin with 0 are counted nowhere;
    the total is the number of runs that do not begin with 0.  On the
    scenario of the specification the counts are 2, 1, 0, 0, 0, 0, 1, 0, 1
    and the total is 5. *)
Theorem histogram_counts_leading_digits :
  (forall text,
     digit_runs text (findall_digits text) /\
     count_first_digits (findall_digits text)
       = Ok (histogram_spec (findall_digits text)) /\
     Text.sum (histogram_spec (findall_digits text))
       = Z.of_nat (List.length (filter valid_token (findall_digits text)))) /\
  findall_digits "123 045 999 100 256 777"
    = ["123"; "045"; "999"; "100"; "256"; "777"] /\
  count_first_digits (findall_digits "123 045 999 100 256 777")
    = Ok [2; 1; 0; 0; 0; 0; 1; 0; 1]%Z /\
  Text.sum [2; 1; 0; 0; 0; 0; 1; 0; 1]%Z = 5%Z.
Proof.
  split; [| repeat split; reflexivity].
  intros text.
  pose proof (findall_digits_runs text) as Hruns.
  pose proof (digit_runs_start_with_digit _ _ Hruns) as Hdigits.
  split; [exact Hruns |]. split.
  - unfold count_first_digits.
    rewrite (count_loop_spec _ Hdigits (repeat 0%Z 9) eq_refl).
    reflexivity.
  - now apply sum_histogram_spec.
Qed.

Lemma lstrip_whitespace_only s : whitespace_only s = true -> lstrip s = EmptyString.
Proof.
  induction s as [| c s IH]; simpl; [reflexivity |].
  intros H. apply andb_true_iff in H as [Hc Hs]. rewrite Hc. now apply IH.
Qed.

Lemma strip_whitespace_only s : whitespace_only s = true -> strip s = EmptyString.
Proof.
  intros H. unfold strip. now rewrite (lstrip_whitespace_only s H).
Qed.

(** C7.  A submission with an empty or whitespace-only name, or with fewer
    than 5 digit runs in the dataset, stops with a validation error: the
    leaderboard and the file stay as they were. *)
Theorem invalid_submission_changes_nothing (float_repr : R -> string)
    (username data_input now : string) (st : app_state) :
  whitespace_only username = true \/
  (List.length (findall_digits data_input) < 5)%nat ->
  exists msg, submit float_repr username data_input now st = (Stopped msg, st).
Proof.
  intros H. unfold submit.
  destruct (is_empty (strip username)) eqn:Hname; [now exists PleaseEnterName |].
  destruct H as [H | H].
  - rewrite (strip_whitespace_only username H) in Hname. discriminate.
  - apply Nat.ltb_lt in H. rewrite H. now exists AtLeastFiveNumbers.
Qed.

Lemma invalid_submission_changes_nothing_witness :
  let st := {| leaderboard := [mk_entry "alice" 88.1%R "2024-01-01 10:00:00"];
               csv_file := None |} in
  (exists msg,
     submit sample_repr "   " "1 2 3 4 5 6" "2024-01-02 00:00:00" st
     = (Stopped msg, st)) /\
  (exists msg,
     submit sample_repr "bob" "12 34" "2024-01-02 00:00:00" st
     = (Stopped msg, st)).
Proof.
  intros st. split.
  - apply (invalid_submission_changes_nothing sample_repr "   " "1 2 3 4 5 6").
    left. reflexivity.
  - apply (invalid_submission_changes_nothing sample_repr "bob" "12 34").
    right. vm_compute. lia.
Defined.

(** C1.  The claim is that a dataset with at least 5 digit runs that all
    begin with 0 gets score 0 or a validation error.  On the five runs below
    every count is 0, the total is 0, and the handler divides the counts by
    the total before it calls the scorer: [ZeroDivisionError] is raised and
    nothing handles it. *)
Theorem zero_leading_dataset_crashes (float_repr : R -> string)
    (now : string) (st : app_state) :
  submit float_repr "bob" "01 02 03 04 05" now st
  = (Crashed ZeroDivisionError, st).
Proof. reflexivity. Qed.

(** A dataset none of whose runs is a valid token makes the handler divide
    by zero. *)
Lemma no_valid_token_histogram (runs : list string) :
  Forall (fun n => valid_token n = false) runs ->
  histogram_spec runs = repeat 0%Z 9.
Proof.
  intros H. unfold histogram_spec, count_leading. cbn [map repeat].
  assert (Hnone : forall d, (1 <= d <= 9)%nat ->
                    filter (leading_digit_is d) runs = []).
  { intros d Hd. induction H as [| n runs Hn Hruns IH]; [reflexivity |].
    cbn [filter]. rewrite IH.
    destruct n as [| c n']; [reflexivity |].
    cbn [leading_digit_is valid_token] in *.
    apply negb_false_iff, Ascii.eqb_eq in Hn. subst c.
    assert (Hcase : (d = 1 \/ d = 2 \/ d = 3 \/ d = 4 \/ d = 5 \/ d = 6 \/
                     d = 7 \/ d = 8 \/ d = 9)%nat) by lia.
    repeat (destruct Hcase as [-> | Hcase]; [reflexivity |]).
    now subst d. }
  rewrite !Hnone by lia. reflexivity.
Qed.

Lemma all_zero_leading_crashes (float_repr : R -> string)
    (username data_input now : string) (st : app_state) :
  is_empty (strip username) = false ->
  (5 <= List.length (findall_digits data_input))%nat ->
  Forall (fun n => valid_token n = false) (findall_digits data_input) ->
  submit float_repr username data_input now st = (Crashed ZeroDivisionError, st).
Proof.
  intros Hname Hlen Hzero. unfold submit. rewrite Hname.
  apply Nat.ltb_ge in Hlen. rewrite Hlen.
  pose proof (findall_digits_runs data_input) as Hruns.
  pose proof (digit_runs_start_with_digit _ _ Hruns) as Hdigits.
  unfold score_dataset, count_first_digits.
  rewrite (count_loop_spec _ Hdigits (repeat 0%Z 9) eq_refl).
  rewrite (no_valid_token_histogram _ Hzero). reflexivity.
Qed.

(** C3.  The claim is that every histogram with a positive total gets a
    score between 0.0 and 100.0.  For the histogram of a thousand numbers
    that all begin with 9 the statistic exceeds 20000, [math.exp] is called
    above 2000 and raises [OverflowError]: the scorer returns no score, and
    the submit handler crashes on such a dataset. *)
Theorem chi_square_score_overflows :
  chi_square_score [0; 0; 0; 0; 0; 0; 0; 0; 1000]%Z BENFORD 1000
  = Raise OverflowError /\
  forall (float_repr : R -> string) (now : string) (st : app_state),
    submit float_repr "bob" (nines 1000) now st = (Crashed OverflowError, st).
Proof.
  split; [exact nines_overflow |].
  intros float_repr now st.
  assert (Hruns : findall_digits (nines 1000) = repeat "9" 1000)
    by (vm_compute; reflexivity).
  assert (Hcounts : count_first_digits (repeat "9" 1000)
                    = Ok [0; 0; 0; 0; 0; 0; 0; 0; 1000]%Z)
    by (vm_compute; reflexivity).
  unfold submit. rewrite Hruns.
  change (is_empty (strip "bob")) with false.
  change (List.length (repeat "9" 1000) <? 5)%nat with false.
  cbv iota. unfold score_dataset. rewrite Hcounts. cbn [bind].
  change (Text.sum [0; 0; 0; 0; 0; 0; 0; 0; 1000]%Z) with 1000%Z.
  unfold observed_of, truediv. cbn [for_each bind Z.eqb].
  rewrite nines_overflow. reflexivity.
Qed.

End SubmitClaims.

(** ** The leaderboard *)

Section LeaderboardFacts.

Local Open Scope R_scope.

Lemma insert_desc_perm x l : Permutation (insert_desc x l) (x :: l).
Proof.
  induction l as [| y l IH]; simpl; [reflexivity |].
  destruct (Rlt_dec (score x) (score y)); [| reflexivity].
  rewrite IH. apply perm_swap.
Qed.

Lemma sorted_by_score_desc_perm l : Permutation (sorted_by_score_desc l) l.
Proof.
  induction l as [| x l IH]; simpl; [reflexivity |].
  rewrite insert_desc_perm. now constructor.
Qed.

Lemma insert_desc_sorted x l : sorted_desc l -> sorted_desc (insert_desc x l).
Proof.
  unfold sorted_desc. induction 1 as [| y l Hl IH Hy]; simpl.
  - repeat constructor.
  - destruct (Rlt_dec (score x) (score y)) as [Hlt | Hge].
    + constructor; [exact IH |].
      rewrite insert_desc_perm. constructor; [lra | exact Hy].
    + constructor; [now constructor |].
      constructor; [lra |].
      eapply Forall_impl; [| exact Hy]. simpl. intros b Hb. lra.
Qed.

Lemma sorted_by_score_desc_sorted l : sorted_desc (sorted_by_score_desc l).
Proof.
  induction l as [| x l IH]; simpl; [constructor | now apply insert_desc_sorted].
Qed.

Lemma insert_desc_stable s x l :
  filter (has_score s) (insert_desc x l) = filter (has_score s) (x :: l).
Proof.
  induction l as [| y l IH]; [reflexivity |].
  cbn [insert_desc].
  destruct (Rlt_dec (score x) (score y)) as [Hlt | Hge]; [| reflexivity].
  cbn [filter] in *. rewrite IH. unfold has_score.
  destruct (Req_dec_T (score x) s), (Req_dec_T (score y) s); try reflexivity.
  exfalso. lra.
Qed.

Lemma sorted_by_score_desc_stable s l :
  filter (has_score s) (sorted_by_score_desc l) = filter (has_score s) l.
Proof.
  induction l as [| x l IH]; [reflexivity |].
  cbn [sorted_by_score_desc fold_right]. rewrite insert_desc_stable.
  cbn [filter]. fold (sorted_by_score_desc l). now rewrite IH.
Qed.

Lemma sorted_desc_scores b :
  sorted_desc b <-> StronglySorted (fun x y => y <= x) (map score b).
Proof.
  unfold sorted_desc. induction b as [| e b IH]; simpl.
  - split; constructor.
  - split; intros H; inversion H; subst; constructor; try (now apply IH).
    + now apply (proj2 (Forall_map score (fun y => y <= score e) b)).
    + now apply (proj1 (Forall_map score (fun y => y <= score e) b)).
Qed.

Lemma rename_at_fields i new b b' :
  rename_at i new b = Ok b' ->
  map score b' = map score b /\ map timestamp b' = map timestamp b.
Proof.
  revert i b'. induction b as [| e b IH]; intros [| i] b' H; simpl in H;
    try discriminate.
  - inversion H; subst. auto.
  - destruct (rename_at i new b) as [r |] eqn:Hr; simpl in H; [| discriminate].
    inversion H; subst. destruct (IH _ _ Hr) as [H1 H2]. simpl. now rewrite H1, H2.
Qed.

Lemma pop_at_split i b b' :
  pop_at i b = Ok b' ->
  exists pre e post, b = pre ++ e :: post /\ b' = pre ++ post /\ List.length pre = i.
Proof.
  revert i b'. induction b as [| e b IH]; intros [| i] b' H; simpl in H;
    try discriminate.
  - inversion H; subst. now exists [], e, b'.
  - destruct (pop_at i b) as [r |] eqn:Hr; simpl in H; [| discriminate].
    inversion H; subst. destruct (IH _ _ Hr) as (pre & x & post & -> & -> & Hlen).
    exists (e :: pre), x, post. simpl. auto.
Qed.

Lemma sorted_desc_remove pre e post :
  sorted_desc (pre ++ e :: post) -> sorted_desc (pre ++ post).
Proof.
  unfold sorted_desc. induction pre as [| x pre IH]; simpl; intros H;
    inversion H; subst.
  - assumption.
  - constructor; [now apply IH |].
    rewrite Forall_app in *. destruct H3 as [Hpre Hpost].
    inversion Hpost; subst. now split.
Qed.

Lemma mutate_sorted b m : sorted_desc b -> sorted_desc (mutate b m).
Proof.
  intros Hb. destruct m as [e | sel new | sel]; simpl.
  - apply sorted_by_score_desc_sorted.
  - unfold update_name. destruct (find_index b sel) as [i |]; simpl; [| exact Hb].
    destruct (rename_at i new b) as [b' |] eqn:Hr; simpl; [| exact Hb].
    apply rename_at_fields in Hr as [Hs _].
    apply sorted_desc_scores. rewrite Hs. now apply sorted_desc_scores.
  - unfold delete_entry. destruct (find_index b sel) as [i |]; simpl; [| exact Hb].
    destruct (pop_at i b) as [b' |] eqn:Hp; simpl; [| exact Hb].
    apply pop_at_split in Hp as (pre & e & post & -> & -> & _).
    eapply sorted_desc_remove; eauto.
Qed.

Lemma mutate_all_sorted ms : forall b, sorted_desc b -> sorted_desc (mutate_all b ms).
Proof.
  unfold mutate_all. induction ms as [| m ms IH]; intros b Hb; simpl; [exact Hb |].
  apply IH. now apply mutate_sorted.
Qed.

Lemma mutate_order_kept b m : order_kept b m (mutate b m).
Proof.
  destruct m as [e | sel new | sel]; simpl.
  - split; [apply sorted_by_score_desc_perm |].
    intros s. apply sorted_by_score_desc_stable.
  - unfold update_name. destruct (find_index b sel) as [i |]; simpl; [| auto].
    destruct (rename_at i new b) as [b' |] eqn:Hr; simpl; [| auto].
    now apply rename_at_fields in Hr.
  - unfold delete_entry. destruct (find_index b sel) as [i |]; simpl; [| auto].
    destruct (pop_at i b) as [b' |] eqn:Hp; simpl; [| auto].
    apply pop_at_split in Hp as (pre & e & post & -> & -> & _).
    right. now exists pre, e, post.
Qed.

Lemma find_index_first pre e post :
  Forall (fun x => String.eqb (name x) (name e) = false) pre ->
  find_index (pre ++ e :: post) (name e) = Ok (List.length pre).
Proof.
  induction 1 as [| x pre Hx Hpre IH]; simpl.
  - now rewrite String.eqb_refl.
  - now rewrite Hx, IH.
Qed.

Lemma rename_at_middle pre e post new :
  rename_at (List.length pre) new (pre ++ e :: post) = Ok (pre ++ set_name new e :: post).
Proof. induction pre as [| x pre IH]; simpl; [reflexivity | now rewrite IH]. Qed.

Lemma pop_at_middle pre e post :
  pop_at (List.length pre) (pre ++ e :: post) = Ok (pre ++ post).
Proof. induction pre as [| x pre IH]; simpl; [reflexivity | now rewrite IH]. Qed.

End LeaderboardFacts.

(** ** Claims about the leaderboard *)

Section LeaderboardClaims.

Local Open Scope R_scope.
Local Open Scope string_scope.

(** C2, for a leaderboard that starts sorted.  Starting from a leaderboard
    sorted by decreasing score, as the empty one of a first run is, every
    sequence of appends, renames and deletes leaves it sorted by decreasing
    score; an append sorts whatever leaderboard it finds; and no mutation
    changes the relative order of entries with equal scores: the re-sort
    after an append is stable.  The scores are numbers: a NaN, which only a
    file edited by hand brings in, is outside the model. *)
Theorem leaderboard_sorted_stable (ms : list mutation) (board : list entry) :
  sorted_desc board ->
  sorted_desc (mutate_all board ms) /\
  (forall b ms1 e ms2, sorted_desc (mutate_all b (ms1 ++ Append e :: ms2))) /\
  (forall b m, order_kept b m (mutate b m)).
Proof.
  intros Hb. split; [now apply mutate_all_sorted |].
  split; [| apply mutate_order_kept].
  intros b ms1 e ms2. unfold mutate_all. rewrite fold_left_app.
  apply mutate_all_sorted. apply sorted_by_score_desc_sorted.
Qed.

Lemma leaderboard_sorted_stable_witness :
  sorted_desc
    (mutate_all
       [mk_entry "alice" 88.1 "2024-01-01 10:00:00";
        mk_entry "bob" 70.3 "2024-01-01 11:00:00"]
       [Append (mk_entry "carol" 70.3 "2024-01-02 09:00:00");
        Update "bob" "bobby";
        Delete "alice"]).
Proof.
  apply (leaderboard_sorted_stable
           [Append (mk_entry "carol" 70.3 "2024-01-02 09:00:00");
            Update "bob" "bobby";
            Delete "alice"]
           [mk_entry "alice" 88.1 "2024-01-01 10:00:00";
            mk_entry "bob" 70.3 "2024-01-01 11:00:00"]).
  unfold sorted_desc. repeat constructor. simpl. lra.
Defined.

(** The handlers change the leaderboard by these mutations. *)
Lemma click_update_mutates float_repr selected_name new_name st :
  leaderboard (snd (click_update float_repr selected_name new_name st))
  = mutate (leaderboard st) (Update selected_name new_name).
Proof.
  unfold click_update. simpl.
  now destruct (update_name (leaderboard st) selected_name new_name).
Qed.

Lemma click_delete_mutates float_repr selected_name st :
  leaderboard (snd (click_delete float_repr selected_name st))
  = mutate (leaderboard st) (Delete selected_name).
Proof.
  unfold click_delete. simpl.
  now destruct (delete_entry (leaderboard st) selected_name).
Qed.

Lemma submit_mutates float_repr username data_input now st score observed st' :
  submit float_repr username data_input now st = (Scored score observed, st') ->
  leaderboard st' = mutate (leaderboard st) (Append (mk_entry username score now)).
Proof.
  unfold submit.
  destruct (is_empty (strip username)); [discriminate |].
  destruct (List.length (findall_digits data_input) <? 5)%nat; [discriminate |].
  destruct (score_dataset (findall_digits data_input)) as [[s o] |];
    [| discriminate].
  intros H. inversion H; subst. reflexivity.
Qed.

(** C2, as claimed, fails: nothing sorts a leaderboard when it is loaded,
    renamed in or deleted from.  A session that starts on a file whose rows
    are in increasing score order holds that order in memory, and the two
    admin buttons leave it out of order. *)
Lemma loaded_leaderboard_stays_unsorted :
  let file := (writerow ["bob"; "50.0"; "2024-01-01 12:00:00"] ++
               writerow ["carol"; "70.3"; "2024-01-01 11:00:00"] ++
               writerow ["alice"; "88.1"; "2024-01-01 10:00:00"])%string in
  let ms := [Update "bob" "bobby"; Delete "carol"] in
  exists st : app_state,
    start_session sample_float (Some file) = Ok st /\
    ~ sorted_desc (leaderboard st) /\
    leaderboard
      (snd (click_delete sample_repr "carol"
              (snd (click_update sample_repr "bob" "bobby" st))))
    = mutate_all (leaderboard st) ms /\
    ~ sorted_desc (mutate_all (leaderboard st) ms).
Proof.
  intros file ms.
  set (board := [mk_entry "bob" 50 "2024-01-01 12:00:00";
                 mk_entry "carol" 70.3 "2024-01-01 11:00:00";
                 mk_entry "alice" 88.1 "2024-01-01 10:00:00"]).
  assert (Hread : reader file
                  = ([["bob"; "50.0"; "2024-01-01 12:00:00"];
                      ["carol"; "70.3"; "2024-01-01 11:00:00"];
                      ["alice"; "88.1"; "2024-01-01 10:00:00"]], None))
    by (vm_compute; reflexivity).
  exists {| leaderboard := board; csv_file := Some file |}.
  split.
  { unfold start_session, load_leaderboard. rewrite Hread. reflexivity. }
  cbn [leaderboard].
  assert (Hms : mutate_all board ms
                = [mk_entry "bobby" 50 "2024-01-01 12:00:00";
                   mk_entry "alice" 88.1 "2024-01-01 10:00:00"])
    by reflexivity.
  split; [| split].
  - unfold sorted_desc, board. intros H.
    apply StronglySorted_inv in H as [_ H].
    apply Forall_inv in H. cbn [score] in H. lra.
  - rewrite click_delete_mutates, click_update_mutates. reflexivity.
  - rewrite Hms. unfold sorted_desc. intros H.
    apply StronglySorted_inv in H as [_ H].
    apply Forall_inv in H. cbn [score] in H. lra.
Qed.

(** C9.  When several entries share the selected name, the rename and the
    delete act on the first of them in the current order: every entry before
    it and after it is left as it was. *)
Theorem admin_acts_on_first_match (float_repr : R -> string)
    (pre : list entry) (e : entry) (post : list entry)
    (new_name : string) (file : option string) :
  Forall (fun x => String.eqb (name x) (name e) = false) pre ->
  click_update float_repr (name e) new_name
    {| leaderboard := pre ++ e :: post; csv_file := file |}
  = (Saved,
     {| leaderboard := pre ++ set_name new_name e :: post;
        csv_file := Some (save_leaderboard float_repr
                            (pre ++ set_name new_name e :: post)) |}) /\
  click_delete float_repr (name e)
    {| leaderboard := pre ++ e :: post; csv_file := file |}
  = (Saved,
     {| leaderboard := pre ++ post;
        csv_file := Some (save_leaderboard float_repr (pre ++ post)) |}).
Proof.
  intros Hpre. unfold click_update, click_delete, update_name, delete_entry.
  cbn [leaderboard]. rewrite (find_index_first pre e post Hpre). cbn [bind].
  now rewrite rename_at_middle, pop_at_middle.
Qed.

Lemma admin_acts_on_first_match_witness :
  let alice := mk_entry "alice" 88.1 "2024-01-01 10:00:00" in
  let bob1 := mk_entry "bob" 70.3 "2024-01-01 11:00:00" in
  let bob2 := mk_entry "bob" 50 "2024-01-01 12:00:00" in
  fst (click_delete sample_repr "bob"
         {| leaderboard := [alice; bob1; bob2]; csv_file := None |}) = Saved /\
  leaderboard (snd (click_delete sample_repr "bob"
         {| leaderboard := [alice; bob1; bob2]; csv_file := None |}))
  = [alice; bob2] /\
  leaderboard (snd (click_update sample_repr "bob" "robert"
         {| leaderboard := [alice; bob1; bob2]; csv_file := None |}))
  = [alice; mk_entry "robert" 70.3 "2024-01-01 11:00:00"; bob2].
Proof.
  intros alice bob1 bob2.
  destruct (admin_acts_on_first_match sample_repr [alice] bob1 [bob2]
              "robert" None) as [Hupdate Hdelete].
  - repeat constructor.
  - cbn [name bob1 app] in Hupdate, Hdelete.
    rewrite Hupdate, Hdelete. repeat split.
Defined.

End LeaderboardClaims.

(** ** The csv reader on what the writer wrote *)

Section ReaderFacts.

Local Open Scope string_scope.

Lemma feed_chars_app r a b :
  feed_chars r (a ++ b) = bind (feed_chars r a) (fun r' => feed_chars r' b).
Proof.
  revert r. induction a as [| c a IH]; intros r; simpl; [reflexivity |].
  destruct (parse_process_char r (Some c)); simpl; [apply IH | reflexivity].
Qed.

Lemma continues_step r_line cur r c r1 :
  continues r_line cur r -> parse_process_char r (Some c) = Ok r1 ->
  continues r_line (cur ++ String c EmptyString) r1.
Proof.
  unfold continues. intros H H1. rewrite feed_chars_app, H. simpl. now rewrite H1.
Qed.

Lemma advances_refl r_line cur : advances r_line cur EmptyString r_line cur.
Proof. intros tail. reflexivity. Qed.

Lemma advances_trans a ca p b cb q c cc :
  advances a ca p b cb -> advances b cb q c cc -> advances a ca (p ++ q) c cc.
Proof.
  intros H1 H2 tail. rewrite append_assoc, H1. apply H2.
Qed.

Lemma lines_from_plain cur c s :
  is_newline c = false ->
  lines_from cur (String c s) = lines_from (cur ++ String c EmptyString) s.
Proof.
  unfold is_newline. intros H. apply orb_false_iff in H as [H1 H2].
  simpl. now rewrite H1, H2.
Qed.

Lemma advances_plain r_line cur c :
  is_newline c = false ->
  advances r_line cur (String c EmptyString) r_line (cur ++ String c EmptyString).
Proof.
  intros H tail. change (String c EmptyString ++ tail) with (String c tail).
  now rewrite lines_from_plain.
Qed.

Lemma parse_add_char_ok r c :
  (N.of_nat (String.length (field r)) < field_limit)%N ->
  parse_add_char r c =
  Ok {| state := state r; fields := fields r;
        field := field r ++ String c EmptyString |}.
Proof.
  intros H. unfold parse_add_char.
  destruct (N.leb_spec field_limit (N.of_nat (String.length (field r))));
    [lia | reflexivity].
Qed.

Lemma fits_shorter acc f c :
  fits (acc ++ String c f) ->
  (N.of_nat (String.length acc) < field_limit)%N /\
  fits ((acc ++ String c EmptyString) ++ f).
Proof.
  unfold fits. rewrite !length_append. simpl.
  intros H. split; lia.
Qed.

(** Unquoted content: characters of a field that needs no quoting. *)
Lemma unquoted_content f :
  forall r_line cur r,
  continues r_line cur r -> state r = IN_FIELD ->
  want_quote f = false -> fits (field r ++ f) ->
  continues r_line (cur ++ f)
    {| state := IN_FIELD; fields := fields r; field := field r ++ f |} /\
  advances r_line cur f r_line (cur ++ f).
Proof.
  induction f as [| c f IH]; intros r_line cur r Hc Hst Hq Hfit.
  - rewrite !append_nil_r. split; [| apply advances_refl].
    destruct r; simpl in *; now subst.
  - simpl in Hq. apply orb_false_iff in Hq as [Hsp Hq].
    unfold is_special in Hsp. repeat (apply orb_false_iff in Hsp as [Hsp ?]).
    apply fits_shorter in Hfit as [Hlt Hfit].
    assert (Hstep : parse_process_char r (Some c) =
                    Ok {| state := IN_FIELD; fields := fields r;
                          field := field r ++ String c EmptyString |}).
    { unfold parse_process_char. rewrite Hst. simpl.
      unfold is_newline. rewrite H0, H, Hsp.  simpl.
      rewrite parse_add_char_ok by exact Hlt. now rewrite Hst. }
    destruct (IH r_line (cur ++ String c EmptyString) _
                (continues_step _ _ _ _ _ Hc Hstep) eq_refl Hq Hfit) as [Hc' Hadv].
    simpl in Hc', Hadv. rewrite !append_assoc in Hc'. simpl in Hc'.
    rewrite append_assoc in Hadv. simpl in Hadv.
    split; [exact Hc' |].
    change (String c f) with (String c EmptyString ++ f).
    eapply advances_trans; [apply advances_plain | exact Hadv].
    unfold is_newline. now rewrite H0, H.
Qed.

Lemma continues_refl r : continues r EmptyString r.
Proof. reflexivity. Qed.

Lemma read_rows_open_quote r_line cur r rest :
  continues r_line cur r -> state r = IN_QUOTED_FIELD ->
  read_rows r_line (cur :: rest) = read_rows r rest.
Proof.
  unfold continues. intros Hc Hst. cbn [read_rows]. unfold feed_line.
  rewrite Hc. cbn [bind]. unfold parse_process_char. rewrite Hst.
  unfold at_start_record. now rewrite Hst.
Qed.

Lemma lines_from_LF cur s :
  lines_from cur (String LF s) =
  (cur ++ String LF EmptyString) :: lines_from EmptyString s.
Proof. reflexivity. Qed.

Lemma lines_from_CR_LF cur s :
  lines_from cur (String CR (String LF s)) =
  ((cur ++ String CR EmptyString) ++ String LF EmptyString)
    :: lines_from EmptyString s.
Proof. reflexivity. Qed.

Lemma lines_from_CR_other cur c s :
  Ascii.eqb c LF = false ->
  lines_from cur (String CR (String c s)) =
  (cur ++ String CR EmptyString) :: lines_from EmptyString (String c s).
Proof.
  intros H. cbn [lines_from]. change (Ascii.eqb CR LF) with false.
  change (Ascii.eqb CR CR) with true. cbv iota. now rewrite H.
Qed.

Lemma quoted_char r c :
  state r = IN_QUOTED_FIELD -> Ascii.eqb c quotechar = false ->
  (N.of_nat (String.length (field r)) < field_limit)%N ->
  parse_process_char r (Some c) =
  Ok {| state := IN_QUOTED_FIELD; fields := fields r;
        field := field r ++ String c EmptyString |}.
Proof.
  intros Hst Hq Hlt. unfold parse_process_char. rewrite Hst, Hq.
  rewrite parse_add_char_ok by exact Hlt. now rewrite Hst.
Qed.

Lemma escape_head c f : exists x, escape (String c f) = String c x.
Proof. simpl. destruct (Ascii.eqb c quotechar); eauto. Qed.

Lemma quoted_content (n : nat) :
  forall f, (String.length f <= n)%nat ->
  forall r_line cur r,
  continues r_line cur r -> state r = IN_QUOTED_FIELD ->
  fits (field r ++ f) ->
  exists r_line' cur',
    continues r_line' cur'
      {| state := QUOTE_IN_QUOTED_FIELD; fields := fields r;
         field := field r ++ f |} /\
    advances r_line cur (escape f ++ String quotechar EmptyString) r_line' cur'.
Proof.
  induction n as [| n IH]; intros f Hn r_line cur r Hc Hst Hfit.
  - destruct f; [| simpl in Hn; lia].
    exists r_line, (cur ++ String quotechar EmptyString).
    rewrite append_nil_r. split.
    + eapply continues_step; [exact Hc |].
      unfold parse_process_char. rewrite Hst. reflexivity.
    + now apply advances_plain.
  - destruct f as [| c f].
    { exists r_line, (cur ++ String quotechar EmptyString).
      rewrite append_nil_r. split.
      + eapply continues_step; [exact Hc |].
        unfold parse_process_char. rewrite Hst. reflexivity.
      + now apply advances_plain. }
    simpl in Hn.
    pose proof (fits_shorter _ _ _ Hfit) as [Hlt Hfit'].
    destruct (Ascii.eqb c quotechar) eqn:Hq.
    + (* a quote, written twice *)
      apply Ascii.eqb_eq in Hq. subst c.
      set (r1 := set_state QUOTE_IN_QUOTED_FIELD r).
      set (r2 := {| state := IN_QUOTED_FIELD; fields := fields r;
                    field := field r ++ String quotechar EmptyString |}).
      assert (H1 : parse_process_char r (Some quotechar) = Ok r1).
      { unfold parse_process_char. now rewrite Hst. }
      assert (H2 : parse_process_char r1 (Some quotechar) = Ok r2).
      { unfold parse_process_char, r1. cbn [state set_state is_char].
        change (Ascii.eqb quotechar quotechar) with true. cbv iota.
        rewrite parse_add_char_ok by exact Hlt. reflexivity. }
      pose proof (continues_step _ _ _ _ _ (continues_step _ _ _ _ _ Hc H1) H2) as Hc2.
      destruct (IH f ltac:(lia) _ _ r2 Hc2 eq_refl Hfit') as (rl & cu & Hc' & Hadv).
      exists rl, cu. split.
      * cbn [fields field r2] in Hc'. rewrite append_assoc in Hc'. exact Hc'.
      * cbn [escape]. change (Ascii.eqb quotechar quotechar) with true. cbv iota.
        change (String quotechar (String quotechar (escape f)) ++
                String quotechar EmptyString)
          with (String quotechar EmptyString ++
                (String quotechar EmptyString ++
                 (escape f ++ String quotechar EmptyString))).
        eapply advances_trans; [now apply advances_plain |].
        eapply advances_trans; [now apply advances_plain | exact Hadv].
    + pose proof (quoted_char r c Hst Hq Hlt) as Hstep.
      set (r1 := {| state := IN_QUOTED_FIELD; fields := fields r;
                    field := field r ++ String c EmptyString |}) in *.
      pose proof (continues_step _ _ _ _ _ Hc Hstep) as Hc1.
      cbn [escape]. rewrite Hq.
      destruct (Ascii.eqb c LF) eqn:Hlf; [| destruct (Ascii.eqb c CR) eqn:Hcr].
      * (* a line feed: the line ends inside the quoted field *)
        apply Ascii.eqb_eq in Hlf. subst c.
        destruct (IH f ltac:(lia) r1 EmptyString r1 (continues_refl r1) eq_refl Hfit')
          as (rl & cu & Hc' & Hadv).
        exists rl, cu. split.
        { cbn [fields field r1] in Hc'. rewrite append_assoc in Hc'. exact Hc'. }
        intros tail. cbn [append]. rewrite lines_from_LF.
        rewrite (read_rows_open_quote _ _ _ _ Hc1 eq_refl). apply Hadv.
      * (* a carriage return *)
        apply Ascii.eqb_eq in Hcr. subst c.
        destruct f as [| c2 f2].
        { (* the closing quote follows *)
          exists r1, (String quotechar EmptyString). split.
          - reflexivity.
          - intros tail. cbn [escape append].
            rewrite lines_from_CR_other by reflexivity.
            rewrite (read_rows_open_quote _ _ _ _ Hc1 eq_refl).
            now rewrite lines_from_plain. }
        destruct (Ascii.eqb c2 LF) eqn:Hlf2.
        { (* CR LF inside the field: one line ending *)
          apply Ascii.eqb_eq in Hlf2. subst c2.
          pose proof (fits_shorter _ _ _ Hfit') as [Hlt2 Hfit2].
          assert (Hstep2 := quoted_char r1 LF eq_refl eq_refl Hlt2).
          set (r2 := {| state := IN_QUOTED_FIELD; fields := fields r1;
                        field := field r1 ++ String LF EmptyString |}) in *.
          pose proof (continues_step _ _ _ _ _ Hc1 Hstep2) as Hc2.
          simpl in Hn.
          destruct (IH f2 ltac:(lia) r2 EmptyString r2 (continues_refl r2) eq_refl Hfit2)
            as (rl & cu & Hc' & Hadv).
          exists rl, cu. split.
          - cbn [fields field r1 r2] in Hc'. rewrite !append_assoc in Hc'. exact Hc'.
          - intros tail. cbn [escape append].
            change (Ascii.eqb LF quotechar) with false. cbv iota. cbn [append].
            rewrite lines_from_CR_LF.
            rewrite (read_rows_open_quote _ _ _ _ Hc2 eq_refl). apply Hadv. }
        (* CR followed by another character of the field *)
        destruct (IH (String c2 f2) ltac:(lia) r1 EmptyString r1 (continues_refl r1)
                    eq_refl Hfit') as (rl & cu & Hc' & Hadv).
        exists rl, cu. split.
        { cbn [fields field r1] in Hc'. rewrite append_assoc in Hc'. exact Hc'. }
        intros tail. destruct (escape_head c2 f2) as [x Hx].
        cbn [append]. rewrite Hx. cbn [append].
        rewrite lines_from_CR_other by exact Hlf2.
        rewrite (read_rows_open_quote _ _ _ _ Hc1 eq_refl).
        specialize (Hadv tail). rewrite Hx in Hadv. exact Hadv.
      * (* an ordinary character *)
        destruct (IH f ltac:(lia) _ _ r1 Hc1 eq_refl Hfit') as (rl & cu & Hc' & Hadv).
        exists rl, cu. split.
        { cbn [fields field r1] in Hc'. rewrite append_assoc in Hc'. exact Hc'. }
        change (String c (escape f) ++ String quotechar EmptyString)
          with (String c EmptyString ++ (escape f ++ String quotechar EmptyString)).
        eapply advances_trans; [apply advances_plain | exact Hadv].
        unfold is_newline. now rewrite Hlf, Hcr.
Qed.

Lemma escape_unquoted f : want_quote f = false -> escape f = f.
Proof.
  induction f as [| c f IH]; simpl; [reflexivity |].
  intros H. apply orb_false_iff in H as [Hsp Hq].
  unfold is_special in Hsp. repeat (apply orb_false_iff in Hsp as [Hsp ?]).
  rewrite H1, IH; auto.
Qed.

Lemma start_quote r :
  at_field_start r ->
  parse_process_char r (Some quotechar) =
  Ok {| state := IN_QUOTED_FIELD; fields := fields r; field := EmptyString |}.
Proof.
  intros [[Hst | Hst] Hf]; unfold parse_process_char; rewrite Hst;
    cbn; unfold set_state; cbn; now rewrite Hf.
Qed.

Lemma start_plain r c :
  at_field_start r -> is_special c = false ->
  parse_process_char r (Some c) =
  Ok {| state := IN_FIELD; fields := fields r; field := String c EmptyString |}.
Proof.
  intros [Hst Hf] Hsp.
  unfold is_special in Hsp. repeat (apply orb_false_iff in Hsp as [Hsp ?]).
  assert (Hadd : forall s, parse_add_char (set_state s r) c =
            Ok {| state := s; fields := fields r; field := String c EmptyString |}).
  { intros s. rewrite parse_add_char_ok; cbn [set_state field state fields].
    - now rewrite Hf.
    - rewrite Hf. reflexivity. }
  destruct Hst as [Hst | Hst]; unfold parse_process_char; rewrite Hst.
  - unfold is_newline. rewrite H0, H. cbn [orb]. unfold process_start_field.
    cbn [is_eol_or_newline is_char]. unfold is_newline. rewrite H0, H, H1, Hsp.
    cbn [orb]. rewrite Hadd. reflexivity.
  - unfold process_start_field.
    cbn [is_eol_or_newline is_char]. unfold is_newline. rewrite H0, H, H1, Hsp.
    cbn [orb]. replace r with (set_state START_FIELD r) at 1
      by (destruct r; cbn in *; now subst).
    rewrite Hadd. reflexivity.
Qed.

Lemma field_piece f r_line cur r :
  continues r_line cur r -> at_field_start r -> fits f ->
  exists r_line' cur' r',
    continues r_line' cur' r' /\
    advances r_line cur (join_append f) r_line' cur' /\
    field_read r r' f.
Proof.
  intros Hc Hstart Hfit. unfold join_append.
  destruct (want_quote f) eqn:Hq.
  - pose proof (start_quote r Hstart) as H1.
    set (r1 := {| state := IN_QUOTED_FIELD; fields := fields r;
                  field := EmptyString |}) in *.
    destruct (quoted_content (String.length f) f (le_n _) _ _ r1
                (continues_step _ _ _ _ _ Hc H1) eq_refl Hfit)
      as (rl & cu & Hc' & Hadv).
    eexists rl, cu, _. split; [exact Hc' |]. split.
    + change (String quotechar (escape f ++ String quotechar EmptyString))
        with (String quotechar EmptyString ++
              (escape f ++ String quotechar EmptyString)).
      eapply advances_trans; [now apply advances_plain | exact Hadv].
    + unfold field_read. subst r1. cbn. auto 8.
  - rewrite (escape_unquoted f Hq). destruct f as [| c f].
    + exists r_line, cur, r. split; [exact Hc |]. split; [apply advances_refl |].
      destruct Hstart as [_ Hf]. unfold field_read. auto 8.
    + simpl in Hq. apply orb_false_iff in Hq as [Hsp Hq].
      pose proof (start_plain r c Hstart Hsp) as H1.
      set (r1 := {| state := IN_FIELD; fields := fields r;
                    field := String c EmptyString |}) in *.
      destruct (unquoted_content f r_line (cur ++ String c EmptyString) r1
                  (continues_step _ _ _ _ _ Hc H1) eq_refl Hq Hfit)
        as [Hc' Hadv].
      eexists r_line, _, _. split; [exact Hc' |]. split.
      * change (String c f) with (String c EmptyString ++ f).
        eapply advances_trans; [apply advances_plain | exact Hadv].
        unfold is_special in Hsp. repeat (apply orb_false_iff in Hsp as [Hsp ?]).
        unfold is_newline. now rewrite H0, H.
      * unfold field_read. subst r1. cbn. auto 8.
Qed.

Lemma after_delimiter r0 r f :
  at_field_start r0 -> field_read r0 r f ->
  parse_process_char r (Some delimiter) =
  Ok {| state := START_FIELD; fields := (fields r0 ++ [f])%list;
        field := EmptyString |}.
Proof.
  intros [Hst0 _] (Hfs & Hf & Hst).
  unfold parse_process_char.
  destruct Hst as [Hst | [Hst | [Hst ->]]].
  - rewrite Hst. cbn. unfold parse_save_field, set_state. cbn. now rewrite Hfs, Hf.
  - rewrite Hst. cbn. unfold parse_save_field, set_state. cbn. now rewrite Hfs, Hf.
  - rewrite Hst. destruct Hst0 as [Hst0 | Hst0]; rewrite Hst0; cbn;
      unfold parse_save_field, set_state; cbn; rewrite ?Hst, ?Hst0, Hfs, Hf; reflexivity.
Qed.

Lemma after_line_end r0 r f r_line cur tail :
  state r0 = START_FIELD -> field_read r0 r f -> continues r_line cur r ->
  read_rows r_line (lines_from cur (String CR (String LF tail))) =
  (let (rows, err) := read_rows parse_reset (lines_from EmptyString tail) in
   ((fields r0 ++ [f])%list :: rows, err)).
Proof.
  intros Hst0 (Hfs & Hf & Hst) Hc.
  rewrite lines_from_CR_LF. cbn [read_rows]. unfold feed_line.
  rewrite !feed_chars_app. unfold continues in Hc. rewrite Hc. cbn [bind feed_chars].
  assert (Hcr : parse_process_char r (Some CR) =
                Ok {| state := EAT_CRNL; fields := (fields r0 ++ [f])%list;
                      field := EmptyString |}).
  { unfold parse_process_char.
    destruct Hst as [Hst | [Hst | [Hst ->]]]; rewrite Hst; try rewrite Hst0; cbn;
      unfold parse_save_field, set_state; cbn; now rewrite Hfs, Hf. }
  rewrite Hcr. cbn. reflexivity.
Qed.

Lemma is_empty_append a c b :
  is_empty (a ++ String c EmptyString ++ b) = false.
Proof. now destruct a. Qed.

Lemma writerow_three a b c :
  writerow [a; b; c] =
  join_append a ++ String delimiter EmptyString ++
  join_append b ++ String delimiter EmptyString ++
  join_append c ++ String CR (String LF EmptyString).
Proof.
  unfold writerow. cbn [map String.concat List.length Nat.eqb negb andb].
  rewrite is_empty_append. rewrite !append_assoc. reflexivity.
Qed.

Lemma at_field_start_reset : at_field_start parse_reset.
Proof. split; [now left | reflexivity]. Qed.

(** A written row of three fields is read back as it was. *)
Lemma read_row a b c tail :
  fits a -> fits b -> fits c ->
  read_rows parse_reset (lines_from EmptyString (writerow [a; b; c] ++ tail)) =
  (let (rows, err) := read_rows parse_reset (lines_from EmptyString tail) in
   ([a; b; c] :: rows, err)).
Proof.
  intros Ha Hb Hc. rewrite writerow_three, !append_assoc.
  (* first field *)
  destruct (field_piece a parse_reset EmptyString parse_reset
              (continues_refl _) at_field_start_reset Ha)
    as (rl1 & cu1 & r1 & Hc1 & Hadv1 & Hread1).
  rewrite Hadv1.
  pose proof (after_delimiter _ _ _ at_field_start_reset Hread1) as Hd1.
  pose proof (continues_step _ _ _ _ _ Hc1 Hd1) as Hc1'.
  rewrite (advances_plain rl1 cu1 delimiter eq_refl).
  (* second field *)
  match type of Hc1' with continues _ _ ?r => set (s1 := r) in * end.
  assert (Hs1 : at_field_start s1) by (split; [now right | reflexivity]).
  destruct (field_piece b _ _ s1 Hc1' Hs1 Hb)
    as (rl2 & cu2 & r2 & Hc2 & Hadv2 & Hread2).
  rewrite Hadv2.
  pose proof (after_delimiter _ _ _ Hs1 Hread2) as Hd2.
  pose proof (continues_step _ _ _ _ _ Hc2 Hd2) as Hc2'.
  rewrite (advances_plain rl2 cu2 delimiter eq_refl).
  (* third field and the end of the line *)
  match type of Hc2' with continues _ _ ?r => set (s2 := r) in * end.
  assert (Hs2 : at_field_start s2) by (split; [now right | reflexivity]).
  destruct (field_piece c _ _ s2 Hc2' Hs2 Hc)
    as (rl3 & cu3 & r3 & Hc3 & Hadv3 & Hread3).
  rewrite Hadv3.
  cbn [append].
  rewrite (after_line_end s2 r3 c rl3 cu3 tail eq_refl Hread3 Hc3).
  reflexivity.
Qed.

Lemma concat_cons (x : string) (l : list string) :
  String.concat EmptyString (x :: l) = x ++ String.concat EmptyString l.
Proof.
  destruct l as [| y l]; cbn [String.concat]; [now rewrite append_nil_r | reflexivity].
Qed.

Lemma reader_writerows (rows : list (list string)) :
  Forall three_fields rows ->
  reader (String.concat EmptyString (map writerow rows)) = (rows, None).
Proof.
  unfold reader, file_lines. induction 1 as [| row rows Hrow Hrows IH].
  - reflexivity.
  - destruct Hrow as (a & b & c & -> & Ha & Hb & Hc).
    cbn [map]. rewrite concat_cons, (read_row a b c _ Ha Hb Hc), IH. reflexivity.
Qed.

(** *** A field over the size limit *)

Lemma escape_no_quote f : contains quotechar f = false -> escape f = f.
Proof.
  induction f as [| c f IH]; cbn [contains escape]; [reflexivity |].
  intros H. apply orb_false_iff in H as [Hc H]. now rewrite Hc, IH.
Qed.

Lemma want_quote_delimiter f : contains delimiter f = true -> want_quote f = true.
Proof.
  induction f as [| c f IH]; cbn [contains want_quote]; [discriminate |].
  intros H. apply orb_true_iff in H as [H | H].
  - unfold is_special. now rewrite H.
  - rewrite (IH H). apply orb_true_r.
Qed.

Lemma lines_from_body body : forall cur tail,
  Lines.no_newlines body = true ->
  lines_from cur (body ++ tail) = lines_from (cur ++ body) tail.
Proof.
  induction body as [| c body IH]; intros cur tail H; cbn [append].
  - now rewrite append_nil_r.
  - cbn [Lines.no_newlines] in H. apply andb_true_iff in H as [Hc H].
    apply negb_true_iff in Hc.
    rewrite lines_from_plain by exact Hc. rewrite IH by exact H.
    now rewrite append_assoc.
Qed.

(** The line being read is the beginning of the next line the file yields. *)
Lemma lines_from_first s : forall cur,
  cur <> EmptyString ->
  exists more rest, lines_from cur s = (cur ++ more) :: rest.
Proof.
  induction s as [| c s IH]; intros cur Hcur.
  - exists EmptyString, []. cbn [lines_from].
    destruct cur; [contradiction |]. cbn [flush is_empty].
    now rewrite append_nil_r.
  - cbn [lines_from]. destruct (Ascii.eqb c LF).
    + eexists _, _. reflexivity.
    + destruct (Ascii.eqb c CR).
      * destruct s as [| c2 s2]; [eexists _, _; reflexivity |].
        destruct (Ascii.eqb c2 LF); eexists _, _;
          [rewrite append_assoc |]; reflexivity.
      * destruct (IH (cur ++ String c EmptyString)) as (more & rest & ->).
        { destruct cur; [contradiction | discriminate]. }
        exists (String c more), rest. now rewrite append_assoc.
Qed.

Lemma read_rows_first_line_raises r cur s e :
  cur <> EmptyString -> feed_chars r cur = Raise e ->
  read_rows r (lines_from cur s) = ([], Some e).
Proof.
  intros Hcur Hfeed.
  destruct (lines_from_first s cur Hcur) as (more & rest & ->).
  cbn [read_rows]. unfold feed_line. now rewrite feed_chars_app, Hfeed.
Qed.

(** Inside a quoted field the reader adds every character that is not a
    quote, and stops with its error at the first one over the limit. *)
Lemma quoted_field_too_long body : forall r,
  state r = IN_QUOTED_FIELD -> contains quotechar body = false ->
  (N.of_nat (String.length (field r)) <= field_limit)%N ->
  (field_limit < N.of_nat (String.length (field r) + String.length body))%N ->
  feed_chars r body = Raise CsvError.
Proof.
  induction body as [| c body IH]; intros r Hst Hq Hle Hlt.
  - cbn [String.length] in Hlt. lia.
  - cbn [contains] in Hq. apply orb_false_iff in Hq as [Hc Hq].
    cbn [feed_chars]. unfold parse_process_char. rewrite Hst, Hc.
    unfold parse_add_char.
    destruct (N.leb_spec field_limit (N.of_nat (String.length (field r))))
      as [Hfull | Hroom]; [reflexivity |].
    cbn [bind]. apply IH; cbn [state field]; auto.
    + rewrite length_append. cbn [String.length]. lia.
    + rewrite length_append. cbn [String.length] in *. lia.
Qed.

End ReaderFacts.

(** ** Saving and loading *)

Section PersistenceFacts.

Local Open Scope string_scope.

Variable float_repr : R -> string.
Variable python_float : string -> option R.

Lemma loadable_three_fields (e : entry) :
  loadable float_repr python_float e -> three_fields (entry_row float_repr e).
Proof.
  intros (Hn & Hs & Ht & _). unfold entry_row.
  now exists (name e), (float_repr (score e)), (timestamp e).
Qed.

Lemma load_rows_of_entries (board : list entry) :
  Forall (loadable float_repr python_float) board ->
  forall acc,
    for_each (map (entry_row float_repr) board) (load_row python_float) acc
    = Ok (acc ++ board)%list.
Proof.
  induction 1 as [| e board He Hboard IH]; intros acc; cbn [map for_each].
  - now rewrite app_nil_r.
  - destruct He as (_ & _ & _ & Hfloat).
    unfold entry_row at 1. cbn [load_row]. rewrite Hfloat. cbn [bind].
    rewrite IH, <- app_assoc. now destruct e.
Qed.

Lemma load_row_raises acc row e :
  load_row python_float acc row = Raise e -> e = ValueError.
Proof.
  unfold load_row.
  destruct row as [| n [| s [| t [| ? ?]]]]; try (intros H; now inversion H).
  destruct (python_float s); intros H; now inversion H.
Qed.

Lemma load_rows_bad_row (rows : list (list string)) (bad : list string) :
  In bad rows ->
  (forall acc, load_row python_float acc bad = Raise ValueError) ->
  forall acc, for_each rows (load_row python_float) acc = Raise ValueError.
Proof.
  intros Hin Hbad. induction rows as [| row rows IH]; intros acc; [contradiction |].
  cbn [for_each].
  destruct (load_row python_float acc row) as [acc' |] eqn:Hrow; cbn [bind].
  - destruct Hin as [-> | Hin]; [rewrite Hbad in Hrow; discriminate |].
    now apply IH.
  - now rewrite (load_row_raises _ _ _ Hrow).
Qed.

Lemma load_rows_loaded (rows : list (list string)) :
  forall acc board,
    for_each rows (load_row python_float) acc = Ok board ->
    exists loaded,
      board = (acc ++ loaded)%list /\ Forall2 (row_of python_float) rows loaded.
Proof.
  induction rows as [| row rows IH]; intros acc board H; cbn [for_each] in H.
  - inversion H; subst. exists []. now rewrite app_nil_r.
  - destruct (load_row python_float acc row) as [acc' |] eqn:Hrow;
      cbn [bind] in H; [| discriminate].
    destruct (IH _ _ H) as (loaded & -> & Hall).
    unfold load_row in Hrow.
    destruct row as [| n [| s [| t [| ? ?]]]]; try discriminate.
    destruct (python_float s) as [x |] eqn:Hs; [| discriminate].
    inversion Hrow; subst.
    exists (mk_entry n x t :: loaded). rewrite <- app_assoc. split; [reflexivity |].
    constructor; [| exact Hall]. now exists s.
Qed.

Lemma reader_of_saved (board : list entry) :
  Forall (loadable float_repr python_float) board ->
  reader (save_leaderboard float_repr board)
  = (map (entry_row float_repr) board, None).
Proof.
  intros H. unfold save_leaderboard.
  rewrite <- (map_map (entry_row float_repr) writerow).
  apply reader_writerows.
  apply Forall_map. eapply Forall_impl; [| exact H].
  apply loadable_three_fields.
Qed.

(** An entry whose name has a comma and more characters than the reader's
    field size limit: its row is written, and the reader stops on it. *)
Lemma long_name_raises (e : entry) :
  contains delimiter (name e) = true ->
  contains quotechar (name e) = false ->
  Lines.no_newlines (name e) = true ->
  (field_limit < N.of_nat (String.length (name e)))%N ->
  load_leaderboard python_float (Some (save_leaderboard float_repr [e]))
  = Raise CsvError.
Proof.
  intros Hcomma Hquote Hnl Hlong.
  assert (Hread : reader (save_leaderboard float_repr [e]) = ([], Some CsvError)).
  { unfold save_leaderboard, reader, file_lines, entry_row.
    cbn [map String.concat]. rewrite writerow_three. unfold join_append at 1.
    rewrite (want_quote_delimiter _ Hcomma), (escape_no_quote _ Hquote).
    cbn [append]. rewrite lines_from_plain by reflexivity.
    rewrite append_assoc, lines_from_body by exact Hnl.
    apply read_rows_first_line_raises; [discriminate |].
    cbn [append feed_chars].
    rewrite (start_quote parse_reset at_field_start_reset). cbn [bind].
    apply quoted_field_too_long; cbn [state field fields parse_reset String.length];
      auto; lia. }
  unfold load_leaderboard. rewrite Hread. reflexivity.
Qed.

End PersistenceFacts.

Lemma letters_length n : String.length (letters n) = n.
Proof. induction n as [| n IH]; cbn [letters String.length]; congruence. Qed.

Lemma letters_no_quote n : contains quotechar (letters n) = false.
Proof. induction n as [| n IH]; cbn [letters contains]; [reflexivity | exact IH]. Qed.

Lemma letters_no_newlines n : Lines.no_newlines (letters n) = true.
Proof.
  induction n as [| n IH]; cbn [letters Lines.no_newlines]; [reflexivity | exact IH].
Qed.

Lemma N_of_nat_to_nat (x : N) : N.of_nat (N.to_nat x) = x.
Proof. lia. Qed.

Lemma long_name_comma n : contains delimiter (long_name n) = true.
Proof. reflexivity. Qed.

Lemma long_name_length n :
  N.of_nat (String.length (long_name n)) = (N.of_nat n + 1)%N.
Proof. unfold long_name. cbn [String.length]. rewrite letters_length. lia. Qed.

(** The entry named by a comma and [n] letters, [n] at least the reader's
    field size limit, is written and cannot be read back. *)
Lemma long_name_too_long (float_repr : R -> string)
    (python_float : string -> option R) (n : nat) (x : R) (t : string) :
  (field_limit <= N.of_nat n)%N ->
  load_leaderboard python_float
    (Some (save_leaderboard float_repr [mk_entry (long_name n) x t]))
  = Raise CsvError.
Proof.
  intros Hn. apply long_name_raises; cbn [name].
  - apply long_name_comma.
  - unfold long_name. cbn [contains]. apply letters_no_quote.
  - unfold long_name. cbn [Lines.no_newlines]. apply letters_no_newlines.
  - rewrite long_name_length. lia.
Qed.

Lemma sample_repr_88_1 : sample_repr 88.1%R = "88.1"%string.
Proof.
  unfold sample_repr, float_texts. cbn [find snd fst].
  destruct (Req_dec_T 88.1 88.1) as [_ | Hne]; [reflexivity | now exfalso].
Qed.

(** ** Claims about the persisted store *)

Section StoreClaims.

Local Open Scope string_scope.

(** The writer quotes a field that contains the delimiter, the quote
    character or a line break, and the reader undoes it: saving a
    leaderboard and loading it back recovers every entry, whatever
    characters its name contains, when each field is within the reader's
    field size limit and [float] reads back the text [str] wrote for the
    score.  A comma in a name is not what loses an entry. *)
Lemma save_load_round_trip (float_repr : R -> string)
    (python_float : string -> option R) (board : list entry) :
  Forall (loadable float_repr python_float) board ->
  load_leaderboard python_float (Some (save_leaderboard float_repr board))
  = Ok board.
Proof.
  intros H. unfold load_leaderboard.
  rewrite (reader_of_saved float_repr python_float board H).
  rewrite (load_rows_of_entries float_repr python_float board H). reflexivity.
Qed.

Lemma sample_entry_loadable :
  loadable sample_repr sample_float
    (mk_entry "Doe, Jane" 88.1%R "2024-01-01 00:00:00").
Proof.
  unfold loadable. cbn [name score timestamp]. rewrite sample_repr_88_1.
  repeat split; try (unfold fits; vm_compute; discriminate).
Qed.

Lemma save_load_round_trip_witness :
  load_leaderboard sample_float
    (Some (save_leaderboard sample_repr
             [mk_entry "Doe, Jane" 88.1%R "2024-01-01 00:00:00"]))
  = Ok [mk_entry "Doe, Jane" 88.1%R "2024-01-01 00:00:00"].
Proof.
  apply (save_load_round_trip sample_repr sample_float
           [mk_entry "Doe, Jane" 88.1%R "2024-01-01 00:00:00"]).
  constructor; [exact sample_entry_loadable | constructor].
Defined.

(** C4.  Some entry whose name contains a comma is not recovered when the
    leaderboard is saved and loaded back: the entry whose name is a comma
    followed by 131072 letters.  The writer quotes the name, the reader
    meets a field of 131073 characters, one more than its field size limit,
    and raises its error, so [load_leaderboard] returns no leaderboard,
    whatever [str] and [float] do with the score. *)
Theorem comma_name_not_recovered (float_repr : R -> string)
    (python_float : string -> option R) :
  exists e : entry,
    contains delimiter (name e) = true /\
    N.of_nat (String.length (name e)) = (field_limit + 1)%N /\
    load_leaderboard python_float (Some (save_leaderboard float_repr [e]))
    = Raise CsvError.
Proof.
  exists (mk_entry (long_name (N.to_nat field_limit)) 88.1%R
            "2024-01-01 00:00:00").
  pose proof (N_of_nat_to_nat field_limit) as Hn.
  revert Hn. generalize (N.to_nat field_limit). intros n Hn.
  cbn [name]. split; [apply long_name_comma |].
  split; [now rewrite long_name_length, Hn |].
  apply long_name_too_long. rewrite Hn. apply N.le_refl.
Qed.

(** C10.  When the reader yields a row of three fields whose second field
    [float] does not accept, [load_leaderboard] raises [ValueError]: the row
    is not skipped and nothing is returned.  So when a leaderboard is
    returned, every row had three fields and each score is the number that
    [float] read in the second one. *)
Theorem load_needs_numeric_scores (python_float : string -> option R)
    (text : string) (rows : list (list string)) (err : option exn) :
  reader text = (rows, err) ->
  ((exists n s t, In [n; s; t] rows /\ python_float s = None) ->
   load_leaderboard python_float (Some text) = Raise ValueError) /\
  (forall board,
     load_leaderboard python_float (Some text) = Ok board ->
     Forall2 (row_of python_float) rows board).
Proof.
  intros Hread. unfold load_leaderboard. rewrite Hread. split.
  - intros (n & s & t & Hin & Hs).
    rewrite (load_rows_bad_row python_float rows [n; s; t] Hin); [reflexivity |].
    intros acc. cbn [load_row]. now rewrite Hs.
  - intros board H.
    destruct (for_each rows (load_row python_float) []) as [data |] eqn:Hrows;
      cbn [bind] in H; [| discriminate].
    destruct err; [discriminate |]. inversion H; subst.
    destruct (load_rows_loaded python_float rows [] board Hrows)
      as (loaded & -> & Hall).
    exact Hall.
Qed.

Lemma load_needs_numeric_scores_witness :
  load_leaderboard sample_float
    (Some (writerow ["alice"; "88.1"; "2024-01-01 10:00:00"] ++
           writerow ["bob"; "abc"; "2024-01-01 11:00:00"]))
  = Raise ValueError.
Proof.
  eapply (load_needs_numeric_scores sample_float).
  - vm_compute. reflexivity.
  - exists "bob", "abc", "2024-01-01 11:00:00". split; [| reflexivity].
    right. left. reflexivity.
Defined.

End StoreClaims.

(** * Further properties *)

Import Feedback Measures Lines.

(** ** More on the scorer *)

Section ScorerEdges.

Local Open Scope R_scope.

Lemma for_each_unchanged {A S : Type} (body : S -> A -> result S)
    (xs : list A) (s : S) :
  (forall x, In x xs -> body s x = Ok s) -> for_each xs body s = Ok s.
Proof.
  induction xs as [| x xs IH]; intros H; cbn [for_each]; [reflexivity |].
  rewrite (H x (or_introl eq_refl)). cbn [bind].
  apply IH. intros y Hy. apply H. now right.
Qed.

Lemma getitem_in_range {A : Type} (l : list A) (i : nat) :
  (i < List.length l)%nat -> exists a, getitem l i = Ok a /\ In a l.
Proof.
  intros H. unfold getitem.
  destruct (nth_error l i) as [a |] eqn:Hn.
  - exists a. split; [reflexivity | eapply nth_error_In; eauto].
  - apply nth_error_None in Hn. lia.
Qed.

Lemma getitem_out_of_range {A : Type} (l : list A) (i : nat) :
  (List.length l <= i)%nat -> getitem l i = Raise IndexError.
Proof.
  intros H. unfold getitem. apply nth_error_None in H. now rewrite H.
Qed.

Lemma chi_term_in_range counts benford total s i :
  (i < List.length counts)%nat -> (i < List.length benford)%nat ->
  exists s', chi_term counts benford total s i = Ok s'.
Proof.
  intros Hc Hb. unfold chi_term.
  destruct (getitem_in_range counts i Hc) as (O & -> & _).
  destruct (getitem_in_range benford i Hb) as (b & -> & _).
  cbn [bind]. destruct (Rlt_dec 0 (b * IZR total)); eauto.
Qed.

Lemma chi_term_out_of_range counts benford total s i :
  (List.length counts <= i)%nat \/ (List.length benford <= i)%nat ->
  chi_term counts benford total s i = Raise IndexError.
Proof.
  intros H. unfold chi_term.
  destruct (Nat.lt_ge_cases i (List.length counts)) as [Hc | Hc].
  - destruct (getitem_in_range counts i Hc) as (O & -> & _). cbn [bind].
    destruct H as [H | H]; [lia |].
    now rewrite (getitem_out_of_range benford i H).
  - now rewrite (getitem_out_of_range counts i Hc).
Qed.

Lemma chi_term_raises counts benford total s i e :
  chi_term counts benford total s i = Raise e -> e = IndexError.
Proof.
  intros H.
  destruct (Nat.lt_ge_cases i (List.length counts)) as [Hc | Hc];
    [destruct (Nat.lt_ge_cases i (List.length benford)) as [Hb | Hb] |].
  - destruct (chi_term_in_range counts benford total s i Hc Hb) as [s' Hs'].
    rewrite Hs' in H. discriminate.
  - rewrite chi_term_out_of_range in H by now right. now inversion H.
  - rewrite chi_term_out_of_range in H by now left. now inversion H.
Qed.

Lemma chi_loop_in_range counts benford total (xs : list nat) :
  (forall i, In i xs ->
     (i < List.length counts)%nat /\ (i < List.length benford)%nat) ->
  forall s, exists chi_sq,
    for_each xs (chi_term counts benford total) s = Ok chi_sq.
Proof.
  induction xs as [| x xs IH]; intros H s; cbn [for_each]; [eauto |].
  destruct (H x (or_introl eq_refl)) as [Hc Hb].
  destruct (chi_term_in_range counts benford total s x Hc Hb) as [s' ->].
  cbn [bind]. apply IH. intros i Hi. apply H. now right.
Qed.

Lemma chi_loop_out_of_range counts benford total (xs : list nat) (i : nat) :
  In i xs ->
  (List.length counts <= i)%nat \/ (List.length benford <= i)%nat ->
  forall s, for_each xs (chi_term counts benford total) s = Raise IndexError.
Proof.
  intros Hin Hout. induction xs as [| x xs IH]; intros s; [contradiction |].
  cbn [for_each].
  destruct (chi_term counts benford total s x) as [s' |] eqn:Hx; cbn [bind].
  - destruct Hin as [-> | Hin].
    + rewrite chi_term_out_of_range in Hx by exact Hout. discriminate.
    + now apply IH.
  - now rewrite (chi_term_raises _ _ _ _ _ _ Hx).
Qed.

Lemma score_of_chi_sq_raises chi_sq e :
  score_of_chi_sq chi_sq = Raise e -> e = OverflowError.
Proof.
  unfold score_of_chi_sq, math_exp.
  destruct (Rle_dec (exp (k * (chi_sq - mid))) DBL_MAX); cbn [bind];
    intros H; now inversion H.
Qed.

Lemma chi_square_in_range counts benford total :
  (9 <= List.length counts)%nat -> (9 <= List.length benford)%nat ->
  exists chi_sq, chi_square counts benford total = Ok chi_sq.
Proof.
  intros Hc Hb. unfold chi_square. apply chi_loop_in_range.
  intros i Hi. apply in_seq in Hi. lia.
Qed.

Lemma chi_square_score_short counts benford total :
  (List.length counts < 9 \/ List.length benford < 9)%nat ->
  chi_square_score counts benford total = Raise IndexError.
Proof.
  intros H. unfold chi_square_score, chi_square.
  set (i := Nat.min (List.length counts) (List.length benford)).
  rewrite (chi_loop_out_of_range counts benford total (seq 0 9) i);
    [reflexivity | apply in_seq; lia | lia].
Qed.

Lemma chi_square_score_long counts benford total :
  (9 <= List.length counts)%nat -> (9 <= List.length benford)%nat ->
  chi_square_score counts benford total <> Raise IndexError.
Proof.
  intros Hc Hb H. unfold chi_square_score in H.
  destruct (chi_square_in_range counts benford total Hc Hb) as [chi_sq Hchi].
  rewrite Hchi in H. cbn [bind] in H.
  apply score_of_chi_sq_raises in H. discriminate.
Qed.

(** X2.  [chi_square_score] needs nine entries in [counts] and in
    [benford], the loop reading the indices 0 to 8 of both: with fewer in
    one of them no score is returned, and with nine or more in each the
    call never raises [IndexError]. *)
Theorem chi_square_score_index_error (counts : list Z) (benford : list R)
    (total : Z) :
  ((List.length counts < 9 \/ List.length benford < 9)%nat ->
   forall s, chi_square_score counts benford total <> Ok s) /\
  ((9 <= List.length counts)%nat -> (9 <= List.length benford)%nat ->
   chi_square_score counts benford total <> Raise IndexError).
Proof.
  split.
  - intros H s. rewrite (chi_square_score_short counts benford total H).
    discriminate.
  - apply chi_square_score_long.
Qed.

Lemma chi_square_score_index_error_witness :
  (forall s, chi_square_score [3; 1; 4]%Z BENFORD 8 <> Ok s) /\
  chi_square_score [2; 1; 0; 0; 0; 0; 1; 0; 1]%Z BENFORD 5 <> Raise IndexError.
Proof.
  split.
  - apply (proj1 (chi_square_score_index_error [3; 1; 4]%Z BENFORD 8)).
    left. cbn [List.length]. lia.
  - apply (proj2 (chi_square_score_index_error
                    [2; 1; 0; 0; 0; 0; 1; 0; 1]%Z BENFORD 5));
      cbn [List.length BENFORD]; lia.
Defined.

Lemma chi_square_score_at_most counts benford total s :
  chi_square_score counts benford total = Ok s -> 0 <= s <= 88.1.
Proof.
  intros H. split; [apply (chi_square_score_range _ _ _ _ H) |].
  unfold chi_square_score in H.
  destruct (chi_square counts benford total) as [chi_sq |] eqn:Hchi;
    cbn [bind] in H; [| discriminate].
  apply chi_square_nonneg in Hchi.
  destruct (score_of_chi_sq_antitone chi_sq 0 s Hchi H) as (s0 & Hs0 & Hle).
  rewrite score_of_zero in Hs0. now inversion Hs0; subst.
Qed.

(** X1.  Every score [chi_square_score] returns lies between 0 and 88.1:
    the statistic is never negative, and 88.1 is the score of 0. *)
Theorem score_between_0_and_88_1 (counts : list Z) (benford : list R)
    (total : Z) (s : R) :
  chi_square_score counts benford total = Ok s -> 0 <= s <= 88.1.
Proof. exact (chi_square_score_at_most counts benford total s). Qed.

Lemma score_between_0_and_88_1_witness :
  exists s,
    chi_square_score [2; 1; 0; 0; 0; 0; 1; 0; 1]%Z BENFORD 5 = Ok s /\
    0 <= s <= 88.1.
Proof.
  assert (H : exists chi_sq,
            chi_square [2; 1; 0; 0; 0; 0; 1; 0; 1]%Z BENFORD 5 = Ok chi_sq /\
            chi_sq <= 7).
  { unfold chi_square, BENFORD.
    cbn [seq for_each chi_term getitem nth_error bind].
    repeat match goal with
           | |- context [Rlt_dec ?a ?b] =>
               destruct (Rlt_dec a b); [| exfalso; lra]; cbn [bind for_each]
           end.
    eexists; split; [reflexivity |]. lra. }
  destruct H as (chi_sq & Hchi & Hle).
  assert (Hs : chi_square_score [2; 1; 0; 0; 0; 0; 1; 0; 1]%Z BENFORD 5
               = Ok (py_round1 (100 / (1 + exp (k * (chi_sq - mid)))))).
  { unfold chi_square_score. rewrite Hchi. cbn [bind].
    unfold score_of_chi_sq. rewrite math_exp_below_mid by (unfold mid; lra).
    reflexivity. }
  eexists. split; [exact Hs |].
  exact (score_between_0_and_88_1 _ _ _ _ Hs).
Defined.

End ScorerEdges.

Section ScorerTotals.

Local Open Scope R_scope.

Lemma BENFORD_bounds (b : R) : In b BENFORD -> 0.046 <= b <= 0.301.
Proof.
  unfold BENFORD. cbn [In]. intros H.
  repeat (destruct H as [<- | H]; [lra |]). contradiction.
Qed.

Lemma chi_term_skipped counts total s i :
  (total <= 0)%Z -> (i < 9)%nat -> (9 <= List.length counts)%nat ->
  chi_term counts BENFORD total s i = Ok s.
Proof.
  intros Htotal Hi Hlen. unfold chi_term.
  destruct (getitem_in_range counts i ltac:(lia)) as (O & -> & _).
  destruct (getitem_in_range BENFORD i Hi) as (b & -> & Hb).
  cbn [bind]. apply BENFORD_bounds in Hb. apply IZR_le in Htotal.
  destruct (Rlt_dec 0 (b * IZR total)) as [Hpos | _]; [| reflexivity].
  exfalso. nra.
Qed.

(** X3.  When the total is zero or negative, and an int a double can hold
    (so that [benford[i] * total] is computed), every expected count fails
    the test [E > 0], every term is skipped, and the score is 88.1 whatever
    the counts are. *)
Theorem nonpositive_total_scores_88_1 (counts : list Z) (total : Z) :
  (total <= 0)%Z -> - DBL_MAX <= IZR total ->
  (9 <= List.length counts)%nat ->
  chi_square_score counts BENFORD total = Ok 88.1.
Proof.
  intros Htotal _ Hlen. unfold chi_square_score, chi_square.
  rewrite for_each_unchanged.
  - apply score_of_zero.
  - intros i Hi. apply in_seq in Hi.
    apply chi_term_skipped; [exact Htotal | lia | exact Hlen].
Qed.

Lemma nonpositive_total_scores_88_1_witness :
  chi_square_score [3; 1; 4; 1; 5; 9; 2; 6; 5]%Z BENFORD (-1) = Ok 88.1.
Proof.
  apply (nonpositive_total_scores_88_1 [3; 1; 4; 1; 5; 9; 2; 6; 5]%Z (-1)).
  - lia.
  - pose proof one_le_DBL_MAX. lra.
  - cbn [List.length]. lia.
Defined.

Lemma chi_contribution_bound (O : Z) (b : R) (total : Z) :
  (0 <= O <= total)%Z -> (0 < total)%Z -> 0.046 <= b ->
  chi_contribution O b total
  <= IZR O * (1 / 0.046 - 2) + b * IZR total.
Proof.
  intros [HO0 HOn] Hn Hb. unfold chi_contribution.
  apply IZR_le in HO0, HOn. apply IZR_lt in Hn.
  set (o := IZR O) in *. set (n := IZR total) in *.
  assert (Hd : 0 < b * n) by nra.
  apply Rmult_le_reg_r with (b * n); [exact Hd |].
  unfold Rdiv at 1. rewrite Rmult_assoc, Rinv_l by lra. rewrite Rmult_1_r.
  assert (Ho : o * o <= o * (b * n / 0.046)).
  { apply Rmult_le_compat_l; [exact HO0 |].
    apply Rle_trans with n; [exact HOn |].
    unfold Rdiv. nra. }
  nra.
Qed.

Lemma chi_term_contribution counts total s i O b :
  (0 < total)%Z ->
  getitem counts i = Ok O -> getitem BENFORD i = Ok b -> In b BENFORD ->
  chi_term counts BENFORD total s i = Ok (s + chi_contribution O b total).
Proof.
  intros Hn HO Hb Hin. unfold chi_term. rewrite HO, Hb. cbn [bind].
  apply BENFORD_bounds in Hin. apply IZR_lt in Hn.
  destruct (Rlt_dec 0 (b * IZR total)) as [_ | Hneg]; [reflexivity |].
  exfalso. apply Hneg. nra.
Qed.

(** The statistic of a histogram of [total] valid tokens is at most
    [21 * total]. *)
Lemma chi_square_at_most counts total :
  List.length counts = 9%nat -> Forall (fun c => (0 <= c)%Z) counts ->
  Text.sum counts = total -> (0 < total)%Z ->
  exists chi_sq,
    chi_square counts BENFORD total = Ok chi_sq /\ chi_sq <= 21 * IZR total.
Proof.
  intros Hlen Hpos Hsum Hn.
  destruct counts
    as [| c0 [| c1 [| c2 [| c3 [| c4 [| c5 [| c6 [| c7 [| c8 [| ? ?]]]]]]]]]];
    try discriminate.
  repeat match goal with
         | H : Forall _ (_ :: _) |- _ => inversion H; subst; clear H
         end.
  unfold Text.sum in Hn |- *. cbn [fold_left] in Hn |- *.
  set (total := (0 + c0 + c1 + c2 + c3 + c4 + c5 + c6 + c7 + c8)%Z) in *.
  unfold chi_square. cbn [seq for_each].
  repeat (erewrite chi_term_contribution;
          [ cbn [bind]
          | exact Hn
          | reflexivity
          | reflexivity
          | unfold BENFORD; cbn [In]; tauto ]).
  eexists. split; [reflexivity |].
  assert (Htotal : IZR total
            = IZR c0 + IZR c1 + IZR c2 + IZR c3 + IZR c4 + IZR c5 + IZR c6
              + IZR c7 + IZR c8).
  { unfold total. rewrite !plus_IZR. lra. }
  pose proof (chi_contribution_bound c0 0.301 total
                ltac:(unfold total; lia) Hn ltac:(lra)) as B0.
  pose proof (chi_contribution_bound c1 0.176 total
                ltac:(unfold total; lia) Hn ltac:(lra)) as B1.
  pose proof (chi_contribution_bound c2 0.125 total
                ltac:(unfold total; lia) Hn ltac:(lra)) as B2.
  pose proof (chi_contribution_bound c3 0.097 total
                ltac:(unfold total; lia) Hn ltac:(lra)) as B3.
  pose proof (chi_contribution_bound c4 0.079 total
                ltac:(unfold total; lia) Hn ltac:(lra)) as B4.
  pose proof (chi_contribution_bound c5 0.067 total
                ltac:(unfold total; lia) Hn ltac:(lra)) as B5.
  pose proof (chi_contribution_bound c6 0.058 total
                ltac:(unfold total; lia) Hn ltac:(lra)) as B6.
  pose proof (chi_contribution_bound c7 0.051 total
                ltac:(unfold total; lia) Hn ltac:(lra)) as B7.
  pose proof (chi_contribution_bound c8 0.046 total
                ltac:(unfold total; lia) Hn ltac:(lra)) as B8.
  apply IZR_lt in Hn.
  lra.
Qed.

Lemma pow3_le_DBL_MAX : 3 ^ 628 <= DBL_MAX.
Proof.
  unfold DBL_MAX. rewrite !pow_IZR, <- minus_IZR, <- mult_IZR.
  apply IZR_le. apply Zle_bool_imp_le. vm_compute. reflexivity.
Qed.

Lemma score_returned_below chi_sq :
  chi_sq <= 6300 -> exists s, score_of_chi_sq chi_sq = Ok s.
Proof.
  intros H. unfold score_of_chi_sq.
  rewrite math_exp_in_range; [cbn [bind]; eauto |].
  apply Rle_trans with (3 ^ 628); [| apply pow3_le_DBL_MAX].
  apply exp_le_pow3. rewrite INR_IZR_INZ. simpl. unfold k, mid. lra.
Qed.

Lemma chi_square_score_small counts total :
  List.length counts = 9%nat -> Forall (fun c => (0 <= c)%Z) counts ->
  Text.sum counts = total -> (0 < total <= 300)%Z ->
  exists s, chi_square_score counts BENFORD total = Ok s.
Proof.
  intros Hlen Hpos Hsum [Hn Hmax].
  destruct (chi_square_at_most counts total Hlen Hpos Hsum Hn)
    as (chi_sq & Hchi & Hle).
  unfold chi_square_score. rewrite Hchi. cbn [bind].
  apply score_returned_below. apply IZR_le in Hmax. lra.
Qed.

(** X4.  For a histogram of 1 to 300 valid tokens (non-negative counts,
    nine buckets, the total their sum) the statistic is at most 21 times the
    total, so [math.exp] does not overflow and [chi_square_score] returns a
    score. *)
Theorem small_histogram_gets_score (counts : list Z) (total : Z) :
  List.length counts = 9%nat -> Forall (fun c => (0 <= c)%Z) counts ->
  Text.sum counts = total -> (0 < total <= 300)%Z ->
  exists chi_sq s,
    chi_square counts BENFORD total = Ok chi_sq /\
    chi_sq <= 21 * IZR total /\
    math_exp (k * (chi_sq - mid)) = Ok (exp (k * (chi_sq - mid))) /\
    chi_square_score counts BENFORD total = Ok s.
Proof.
  intros Hlen Hpos Hsum [Hn Hmax].
  destruct (chi_square_at_most counts total Hlen Hpos Hsum Hn)
    as (chi_sq & Hchi & Hle).
  assert (Hsmall : chi_sq <= 6300) by (apply IZR_le in Hmax; lra).
  destruct (score_returned_below chi_sq Hsmall) as [s Hs].
  exists chi_sq, s. split; [exact Hchi |]. split; [exact Hle |]. split.
  - apply math_exp_in_range.
    apply Rle_trans with (3 ^ 628); [| apply pow3_le_DBL_MAX].
    apply exp_le_pow3. rewrite INR_IZR_INZ. simpl. unfold k, mid. lra.
  - unfold chi_square_score. rewrite Hchi. exact Hs.
Qed.

Lemma small_histogram_gets_score_witness :
  exists chi_sq s,
    chi_square [2; 1; 0; 0; 0; 0; 1; 0; 1]%Z BENFORD 5 = Ok chi_sq /\
    chi_sq <= 21 * 5 /\
    math_exp (k * (chi_sq - mid)) = Ok (exp (k * (chi_sq - mid))) /\
    chi_square_score [2; 1; 0; 0; 0; 0; 1; 0; 1]%Z BENFORD 5 = Ok s.
Proof.
  apply (small_histogram_gets_score [2; 1; 0; 0; 0; 0; 1; 0; 1]%Z 5).
  - reflexivity.
  - repeat constructor; lia.
  - reflexivity.
  - lia.
Defined.

End ScorerTotals.

(** ** Feedback *)

Section FeedbackFacts.

Local Open Scope R_scope.

(** X5.  [feedback] is monotone: a higher score never gets a worse
    message. *)
Theorem feedback_monotone (s1 s2 : R) :
  s1 <= s2 -> (grade (feedback s1) <= grade (feedback s2))%nat.
Proof.
  intros H. unfold feedback.
  destruct (Rle_dec 85 s1), (Rle_dec 60 s1), (Rle_dec 30 s1),
           (Rle_dec 85 s2), (Rle_dec 60 s2), (Rle_dec 30 s2);
    cbn [grade]; try lia; exfalso; lra.
Qed.

Lemma feedback_monotone_witness :
  (grade (feedback 50) <= grade (feedback 88.1))%nat.
Proof. apply (feedback_monotone 50 88.1). lra. Defined.

Lemma balloons_monotone (s1 s2 : R) :
  s1 <= s2 -> balloons s1 = true -> balloons s2 = true.
Proof.
  intros H. unfold balloons.
  destruct (Rle_dec 85 s1), (Rle_dec 85 s2); try reflexivity; try discriminate.
  exfalso. lra.
Qed.

(** X6.  Of two histograms with the same total, the one that fits worse
    (greater statistic) never gets the better message: if it is scored, the
    other one is scored too, with a message at least as good, and with
    balloons if the first one had them. *)
Theorem worse_fit_never_better_message (counts1 counts2 : list Z) (total : Z)
    (chi1 chi2 s1 : R) :
  chi_square counts1 BENFORD total = Ok chi1 ->
  chi_square counts2 BENFORD total = Ok chi2 ->
  chi2 <= chi1 ->
  chi_square_score counts1 BENFORD total = Ok s1 ->
  exists s2,
    chi_square_score counts2 BENFORD total = Ok s2 /\
    (grade (feedback s1) <= grade (feedback s2))%nat /\
    (balloons s1 = true -> balloons s2 = true).
Proof.
  unfold chi_square_score. intros H1 H2 Hle. rewrite H1, H2. cbn [bind].
  intros Hs1.
  destruct (score_of_chi_sq_antitone chi1 chi2 s1 Hle Hs1) as (s2 & Hs2 & Hs).
  exists s2. split; [exact Hs2 |]. split.
  - now apply feedback_monotone.
  - now apply balloons_monotone.
Qed.

Lemma worse_fit_never_better_message_witness :
  exists s1 s2,
    chi_square_score [5; 0; 0; 0; 0; 0; 0; 0; 0]%Z BENFORD 5 = Ok s1 /\
    chi_square_score [2; 1; 0; 0; 0; 0; 1; 0; 1]%Z BENFORD 5 = Ok s2 /\
    (grade (feedback s1) <= grade (feedback s2))%nat.
Proof.
  assert (H1 : exists chi1,
            chi_square [5; 0; 0; 0; 0; 0; 0; 0; 0]%Z BENFORD 5 = Ok chi1 /\
            11 <= chi1 <= 12).
  { unfold chi_square, BENFORD.
    cbn [seq for_each chi_term getitem nth_error bind].
    repeat match goal with
           | |- context [Rlt_dec ?a ?b] =>
               destruct (Rlt_dec a b); [| exfalso; lra]; cbn [bind for_each]
           end.
    eexists; split; [reflexivity |]. lra. }
  assert (H2 : exists chi2,
            chi_square [2; 1; 0; 0; 0; 0; 1; 0; 1]%Z BENFORD 5 = Ok chi2 /\
            chi2 <= 7).
  { unfold chi_square, BENFORD.
    cbn [seq for_each chi_term getitem nth_error bind].
    repeat match goal with
           | |- context [Rlt_dec ?a ?b] =>
               destruct (Rlt_dec a b); [| exfalso; lra]; cbn [bind for_each]
           end.
    eexists; split; [reflexivity |]. lra. }
  destruct H1 as (chi1 & Hchi1 & Hb1). destruct H2 as (chi2 & Hchi2 & Hb2).
  assert (Hs1 : chi_square_score [5; 0; 0; 0; 0; 0; 0; 0; 0]%Z BENFORD 5
                = Ok (py_round1 (100 / (1 + exp (k * (chi1 - mid)))))).
  { unfold chi_square_score. rewrite Hchi1. cbn [bind].
    unfold score_of_chi_sq. rewrite math_exp_below_mid by (unfold mid; lra).
    reflexivity. }
  destruct (worse_fit_never_better_message
              [5; 0; 0; 0; 0; 0; 0; 0; 0]%Z [2; 1; 0; 0; 0; 0; 1; 0; 1]%Z 5
              chi1 chi2 _ Hchi1 Hchi2 ltac:(lra) Hs1)
    as (s2 & Hs2 & Hgrade & _).
  eexists _, s2. split; [exact Hs1 |]. split; [exact Hs2 | exact Hgrade].
Defined.

(** X7.  A histogram whose counts equal the expected counts is scored
    88.1, which gets the best message, and balloons. *)
Theorem exact_match_is_excellent (counts : list Z) (total : Z) :
  Forall2 (fun c b => IZR c = b * IZR total) counts BENFORD ->
  chi_square_score counts BENFORD total = Ok 88.1 /\
  feedback 88.1 = Excellent /\ balloons 88.1 = true.
Proof.
  intros H. split.
  - unfold chi_square_score. rewrite (chi_square_exact counts total H).
    apply score_of_zero.
  - unfold feedback, balloons.
    destruct (Rle_dec 85 88.1) as [_ | Hn]; [split; reflexivity |].
    exfalso. lra.
Qed.

Lemma exact_match_is_excellent_witness :
  chi_square_score [301; 176; 125; 97; 79; 67; 58; 51; 46]%Z BENFORD 1000
  = Ok 88.1 /\
  feedback 88.1 = Excellent /\ balloons 88.1 = true.
Proof.
  apply (exact_match_is_excellent
           [301; 176; 125; 97; 79; 67; 58; 51; 46]%Z 1000).
  unfold BENFORD. repeat constructor; lra.
Defined.

End FeedbackFacts.

(** ** More on the text functions *)

Section TextFacts.

Local Open Scope string_scope.

Lemma whitespace_only_forallb s :
  whitespace_only s = forallb is_space (list_ascii_of_string s).
Proof. induction s as [| c s IH]; simpl; [reflexivity | now rewrite IH]. Qed.

Lemma forallb_rev {A : Type} (f : A -> bool) (l : list A) :
  forallb f (rev l) = forallb f l.
Proof.
  induction l as [| x l IH]; simpl; [reflexivity |].
  rewrite forallb_app, IH. simpl. rewrite andb_true_r. apply andb_comm.
Qed.

Lemma whitespace_only_reverse s :
  whitespace_only (reverse s) = whitespace_only s.
Proof.
  unfold reverse. rewrite !whitespace_only_forallb.
  rewrite list_ascii_of_string_of_list_ascii. apply forallb_rev.
Qed.

Lemma whitespace_only_lstrip s :
  whitespace_only (lstrip s) = whitespace_only s.
Proof.
  induction s as [| c s IH]; simpl; [reflexivity |].
  destruct (is_space c) eqn:Hc; simpl; [exact IH | now rewrite Hc].
Qed.

Lemma lstrip_empty s : lstrip s = EmptyString -> whitespace_only s = true.
Proof.
  intros H. rewrite <- whitespace_only_lstrip, H. reflexivity.
Qed.

Lemma reverse_empty s : reverse s = EmptyString -> s = EmptyString.
Proof.
  unfold reverse. intros H.
  assert (Hl : rev (list_ascii_of_string s) = []).
  { rewrite <- (list_ascii_of_string_of_list_ascii (rev (list_ascii_of_string s))).
    now rewrite H. }
  apply (f_equal (@rev ascii)) in Hl. rewrite rev_involutive in Hl. simpl in Hl.
  rewrite <- (string_of_list_ascii_of_string s), Hl. reflexivity.
Qed.

(** X8.  The name check of the submit handler, [not username.strip()],
    holds exactly for the names that are empty or consist of whitespace
    only. *)
Theorem blank_name_iff (username : string) :
  is_empty (strip username) = true <-> whitespace_only username = true.
Proof.
  split.
  - intros H. destruct (strip username) eqn:Hs; [| discriminate].
    unfold strip, rstrip in Hs.
    apply reverse_empty, lstrip_empty in Hs.
    rewrite whitespace_only_reverse, whitespace_only_lstrip in Hs. exact Hs.
  - intros H. now rewrite (strip_whitespace_only username H).
Qed.

Lemma findall_digits_from_app cur a c b :
  is_digit c = false ->
  findall_digits_from cur (a ++ String c b)
  = (findall_digits_from cur a ++ findall_digits b)%list.
Proof.
  intros Hc. revert cur. induction a as [| x a IH]; intros cur; simpl.
  - now rewrite Hc.
  - destruct (is_digit x); [apply IH |].
    rewrite IH. now rewrite app_assoc.
Qed.

(** X9.  Any character that is not a digit separates tokens: the tokens of
    a text are those before the character followed by those after it.  So a
    decimal point or a minus sign splits a number like a space does. *)
Theorem separator_splits_tokens (a b : string) (c : ascii) :
  is_digit c = false ->
  findall_digits (a ++ String c b)
  = (findall_digits a ++ findall_digits b)%list.
Proof. intros Hc. now apply findall_digits_from_app. Qed.

Lemma separator_splits_tokens_witness :
  findall_digits "12.5" = ["12"; "5"].
Proof.
  apply (separator_splits_tokens "12" "5" "."). reflexivity.
Defined.

Lemma findall_digits_skip sep b :
  no_digits sep = true -> findall_digits (sep ++ b) = findall_digits b.
Proof.
  induction sep as [| c sep IH]; simpl; [reflexivity |].
  intros H. apply andb_true_iff in H as [Hc Hsep].
  apply negb_true_iff in Hc.
  unfold findall_digits in *. simpl. rewrite Hc. simpl. now apply IH.
Qed.

Lemma findall_digits_from_all_digits s :
  all_digits s = true ->
  forall cur, findall_digits_from cur s = flush (cur ++ s).
Proof.
  induction s as [| c s IH]; simpl; intros H cur.
  - now rewrite append_nil_r.
  - apply andb_true_iff in H as [Hc Hs]. rewrite Hc, (IH Hs), append_assoc.
    reflexivity.
Qed.

Lemma findall_digits_token tok :
  all_digits tok = true -> tok <> EmptyString -> findall_digits tok = [tok].
Proof.
  intros Hd Hne. unfold findall_digits.
  rewrite (findall_digits_from_all_digits tok Hd). simpl.
  now apply flush_nonempty.
Qed.

(** X10.  Numbers written one after the other with a separator that has no
    digit (a space, a comma, a line break, ...) are found again as they
    were, leading zeros included. *)
Theorem joined_tokens_are_found (sep : string) (tokens : list string) :
  sep <> EmptyString -> no_digits sep = true ->
  Forall (fun tok => all_digits tok = true /\ tok <> EmptyString) tokens ->
  findall_digits (String.concat sep tokens) = tokens.
Proof.
  intros Hne Hsep Htokens.
  destruct sep as [| c sep]; [contradiction |].
  simpl in Hsep. apply andb_true_iff in Hsep as [Hc Hsep].
  apply negb_true_iff in Hc.
  induction Htokens as [| tok tokens [Hd Htok] Hrest IH]; [reflexivity |].
  destruct tokens as [| tok2 tokens].
  - simpl. now apply findall_digits_token.
  - change (String.concat (String c sep) (tok :: tok2 :: tokens))
      with (tok ++ String c
                     (sep ++ String.concat (String c sep) (tok2 :: tokens))).
    unfold findall_digits at 1. rewrite (findall_digits_from_app _ tok c _ Hc).
    fold (findall_digits tok).
    rewrite (findall_digits_token tok Hd Htok).
    rewrite (findall_digits_skip sep _ Hsep), IH. reflexivity.
Qed.

Lemma joined_tokens_are_found_witness :
  findall_digits "12, 034, 5" = ["12"; "034"; "5"].
Proof.
  apply (joined_tokens_are_found ", " ["12"; "034"; "5"]).
  - discriminate.
  - reflexivity.
  - repeat constructor; discriminate.
Defined.

End TextFacts.

(** ** More on the submit handler *)

Section SubmitFacts.

Local Open Scope R_scope.
Local Open Scope string_scope.

Lemma count_first_digits_findall data :
  count_first_digits (findall_digits data)
  = Ok (histogram_spec (findall_digits data)).
Proof.
  pose proof (findall_digits_runs data) as Hruns.
  pose proof (digit_runs_start_with_digit _ _ Hruns) as Hdigits.
  unfold count_first_digits.
  now rewrite (count_loop_spec _ Hdigits (repeat 0%Z 9) eq_refl).
Qed.

Lemma sum_histogram_findall data :
  Text.sum (histogram_spec (findall_digits data))
  = Z.of_nat (List.length (filter valid_token (findall_digits data))).
Proof.
  apply sum_histogram_spec.
  apply (digit_runs_start_with_digit data), findall_digits_runs.
Qed.

Lemma histogram_spec_nonneg runs :
  Forall (fun c => (0 <= c)%Z) (histogram_spec runs).
Proof.
  unfold histogram_spec, count_leading. cbn [map].
  repeat constructor; apply Nat2Z.is_nonneg.
Qed.

Lemma observed_loop counts total :
  total <> 0%Z ->
  forall acc,
    for_each counts (fun acc c => x <- truediv c total ;; Ok (acc ++ [x])%list) acc
    = Ok (acc ++ map (fun c => (IZR c / IZR total)%R) counts)%list.
Proof.
  intros Hn. apply Z.eqb_neq in Hn.
  induction counts as [| c counts IH]; intros acc; cbn [for_each map].
  - now rewrite app_nil_r.
  - unfold truediv at 1. rewrite Hn. cbn [bind]. rewrite IH, <- app_assoc.
    reflexivity.
Qed.

Lemma observed_of_nonzero counts total :
  total <> 0%Z ->
  observed_of counts total = Ok (map (fun c => (IZR c / IZR total)%R) counts).
Proof. intros Hn. unfold observed_of. now rewrite observed_loop. Qed.

Lemma observed_of_zero c counts :
  observed_of (c :: counts) 0 = Raise ZeroDivisionError.
Proof. reflexivity. Qed.

Lemma sum_shift counts : forall a, fold_left Z.add counts a = (a + Text.sum counts)%Z.
Proof.
  unfold Text.sum. induction counts as [| c counts IH]; intros a; cbn [fold_left].
  - lia.
  - rewrite IH, (IH (0 + c)%Z). lia.
Qed.

Lemma total_of_observed counts total :
  total <> 0%Z ->
  total_of (map (fun c => (IZR c / IZR total)%R) counts)
  = (IZR (Text.sum counts) / IZR total)%R.
Proof.
  intros Hn. assert (Hr : IZR total <> 0%R) by now apply not_0_IZR.
  induction counts as [| c counts IH]; unfold total_of in *; cbn [map fold_right].
  - unfold Text.sum. cbn [fold_left]. field. exact Hr.
  - rewrite IH. unfold Text.sum at 2. cbn [fold_left].
    rewrite sum_shift, !plus_IZR. field. exact Hr.
Qed.

(** What the handler computes for the tokens of a dataset, by the number of
    valid tokens. *)
Lemma score_dataset_findall data :
  score_dataset (findall_digits data)
  = (let hist := histogram_spec (findall_digits data) in
     let total :=
       Z.of_nat (List.length (filter valid_token (findall_digits data))) in
     observed <- observed_of hist total ;;
     score <- chi_square_score hist BENFORD total ;;
     Ok (score, observed)).
Proof.
  unfold score_dataset. rewrite count_first_digits_findall. cbn [bind].
  now rewrite sum_histogram_findall.
Qed.

End SubmitFacts.

Section SubmitOutcomes.

Local Open Scope R_scope.
Local Open Scope string_scope.

Variable float_repr : R -> string.

(** The submit handler, case by case, on the number of valid tokens. *)
Lemma submit_outcomes (username data_input now : string) (st : app_state) :
  submit float_repr username data_input now st
  = (let runs := findall_digits data_input in
     let hist := histogram_spec runs in
     let n := List.length (filter valid_token runs) in
     if is_empty (strip username) then (Stopped PleaseEnterName, st)
     else if (List.length runs <? 5)%nat then (Stopped AtLeastFiveNumbers, st)
     else if (n =? 0)%nat then (Crashed ZeroDivisionError, st)
     else
       match chi_square_score hist BENFORD (Z.of_nat n) with
       | Raise e => (Crashed e, st)
       | Ok score =>
           let board :=
             append_entry (leaderboard st) (mk_entry username score now) in
           (Scored score (map (fun c => IZR c / IZR (Z.of_nat n)) hist),
            {| leaderboard := board;
               csv_file := Some (save_leaderboard float_repr board) |})
       end).
Proof.
  unfold submit. cbv zeta.
  destruct (is_empty (strip username)); [reflexivity |].
  destruct (List.length (findall_digits data_input) <? 5)%nat; [reflexivity |].
  rewrite score_dataset_findall. cbv zeta.
  destruct (Nat.eqb_spec
              (List.length (filter valid_token (findall_digits data_input))) 0)
    as [Hz | Hnz].
  - rewrite Hz. reflexivity.
  - rewrite observed_of_nonzero by lia. cbn [bind].
    destruct (chi_square_score _ BENFORD _); reflexivity.
Qed.

Lemma histogram_score_raises runs total e :
  chi_square_score (histogram_spec runs) BENFORD total = Raise e ->
  e = OverflowError.
Proof.
  unfold chi_square_score.
  destruct (chi_square_in_range (histogram_spec runs) BENFORD total)
    as [chi_sq Hchi]; [cbn; lia | cbn; lia |].
  rewrite Hchi. cbn [bind]. apply score_of_chi_sq_raises.
Qed.

Lemma submit_scored (username data_input now : string) (st st' : app_state)
    (s : R) (observed : list R) :
  submit float_repr username data_input now st = (Scored s observed, st') ->
  let hist := histogram_spec (findall_digits data_input) in
  let n := List.length (filter valid_token (findall_digits data_input)) in
  is_empty (strip username) = false /\
  (5 <= List.length (findall_digits data_input))%nat /\
  n <> 0%nat /\
  chi_square_score hist BENFORD (Z.of_nat n) = Ok s /\
  observed = map (fun c => IZR c / IZR (Z.of_nat n)) hist /\
  st' = {| leaderboard :=
             append_entry (leaderboard st) (mk_entry username s now);
           csv_file :=
             Some (save_leaderboard float_repr
                     (append_entry (leaderboard st)
                        (mk_entry username s now))) |}.
Proof.
  rewrite submit_outcomes. cbv zeta.
  destruct (is_empty (strip username)); [discriminate |].
  destruct (Nat.ltb_spec (List.length (findall_digits data_input)) 5)
    as [Hshort | Hlong]; [discriminate |].
  destruct (Nat.eqb_spec
              (List.length (filter valid_token (findall_digits data_input))) 0)
    as [Hz | Hnz]; [discriminate |].
  destruct (chi_square_score _ BENFORD _) as [s0 |] eqn:Hs; [| discriminate].
  intros H. inversion H; subst. repeat split; auto.
Qed.

Lemma submit_small (username data_input now : string) (st : app_state) :
  is_empty (strip username) = false ->
  (5 <= List.length (findall_digits data_input))%nat ->
  (1 <= List.length (filter valid_token (findall_digits data_input)) <= 300)%nat ->
  exists s observed st',
    submit float_repr username data_input now st = (Scored s observed, st').
Proof.
  intros Hname Hlen Hvalid. rewrite submit_outcomes. cbv zeta.
  rewrite Hname. apply Nat.ltb_ge in Hlen. rewrite Hlen.
  destruct (Nat.eqb_spec
              (List.length (filter valid_token (findall_digits data_input))) 0)
    as [Hz | Hnz]; [lia |].
  destruct (chi_square_score_small
              (histogram_spec (findall_digits data_input))
              (Z.of_nat (List.length
                           (filter valid_token (findall_digits data_input)))))
    as [s Hok].
  - reflexivity.
  - apply histogram_spec_nonneg.
  - apply sum_histogram_findall.
  - lia.
  - rewrite Hok. eauto.
Qed.

End SubmitOutcomes.

(** ** Outcomes of a submission *)

Section SubmitExtras.

Local Open Scope R_scope.
Local Open Scope string_scope.

Lemma sum_cons c counts : Text.sum (c :: counts) = (c + Text.sum counts)%Z.
Proof. unfold Text.sum at 1. cbn [fold_left]. rewrite sum_shift. lia. Qed.

Lemma sum_bounds counts :
  Forall (fun c => (0 <= c)%Z) counts ->
  (0 <= Text.sum counts)%Z /\
  Forall (fun c => (0 <= c <= Text.sum counts)%Z) counts.
Proof.
  induction 1 as [| c counts Hc Hcounts [IH0 IH]].
  - split; [reflexivity | constructor].
  - rewrite sum_cons. split; [lia |].
    constructor; [lia |].
    eapply Forall_impl; [| exact IH]. cbv beta. intros x Hx. lia.
Qed.

(** X11.  When the submit handler ends in an exception it has changed
    nothing, and the exception is one of two: [ZeroDivisionError], when no
    token is valid, or [OverflowError], which needs more than 300 valid
    tokens. *)
Theorem submit_crashes_only_two_ways (float_repr : R -> string)
    (username data_input now : string) (st st' : app_state) (e : exn) :
  submit float_repr username data_input now st = (Crashed e, st') ->
  st' = st /\
  let n := List.length (filter valid_token (findall_digits data_input)) in
  (e = ZeroDivisionError /\ n = 0%nat) \/ (e = OverflowError /\ (300 < n)%nat).
Proof.
  rewrite submit_outcomes. cbv zeta.
  destruct (is_empty (strip username)); [discriminate |].
  destruct (List.length (findall_digits data_input) <? 5)%nat; [discriminate |].
  destruct (Nat.eqb_spec
              (List.length (filter valid_token (findall_digits data_input))) 0)
    as [Hz | Hnz].
  - intros H. inversion H; subst. split; [reflexivity |]. now left.
  - destruct (chi_square_score _ BENFORD _) as [s |] eqn:Hs; [discriminate |].
    intros H. inversion H; subst. split; [reflexivity |]. right.
    split; [exact (histogram_score_raises _ _ _ Hs) |].
    destruct (Nat.le_gt_cases
                (List.length (filter valid_token (findall_digits data_input)))
                300) as [Hsmall | Hbig]; [| exact Hbig].
    exfalso.
    destruct (chi_square_score_small
                (histogram_spec (findall_digits data_input))
                (Z.of_nat (List.length
                             (filter valid_token (findall_digits data_input)))))
      as [s Hok].
    + reflexivity.
    + apply histogram_spec_nonneg.
    + apply sum_histogram_findall.
    + lia.
    + rewrite Hok in Hs. discriminate.
Qed.

Lemma submit_crashes_only_two_ways_witness :
  let st := {| leaderboard := [mk_entry "alice" 88.1 "2024-01-01 10:00:00"];
               csv_file := None |} in
  st = st /\
  let n := List.length (filter valid_token (findall_digits "0 00 01 02 03")) in
  (ZeroDivisionError = ZeroDivisionError /\ n = 0%nat) \/
  (ZeroDivisionError = OverflowError /\ (300 < n)%nat).
Proof.
  intros st.
  apply (submit_crashes_only_two_ways sample_repr "bob" "0 00 01 02 03"
           "2024-01-02 00:00:00" st st ZeroDivisionError).
  reflexivity.
Defined.

(** X12.  A submission that is scored appends one entry, with the name as
    typed, the score and the time, re-sorts, and writes the file: the new
    leaderboard is a sorted permutation of the old one and the new entry,
    the file holds what [save_leaderboard] writes for it, and the score lies
    between 0 and 88.1. *)
Theorem scored_submission_effect (float_repr : R -> string)
    (username data_input now : string) (st st' : app_state)
    (s : R) (observed : list R) :
  submit float_repr username data_input now st = (Scored s observed, st') ->
  0 <= s <= 88.1 /\
  leaderboard st'
  = append_entry (leaderboard st) (mk_entry username s now) /\
  Permutation (leaderboard st')
    (leaderboard st ++ [mk_entry username s now]) /\
  sorted_desc (leaderboard st') /\
  in_sync float_repr st'.
Proof.
  intros H. apply submit_scored in H.
  destruct H as (_ & _ & _ & Hs & _ & ->). cbn [leaderboard].
  split; [exact (chi_square_score_at_most _ _ _ _ Hs) |].
  split; [reflexivity |].
  split; [apply sorted_by_score_desc_perm |].
  split; [apply sorted_by_score_desc_sorted | reflexivity].
Qed.

(** X13.  The observed frequencies a scored submission plots are a
    distribution over the nine digits: nine numbers between 0 and 1 that
    sum to 1. *)
Theorem observed_is_a_distribution (float_repr : R -> string)
    (username data_input now : string) (st st' : app_state)
    (s : R) (observed : list R) :
  submit float_repr username data_input now st = (Scored s observed, st') ->
  List.length observed = 9%nat /\
  total_of observed = 1 /\
  Forall (fun x => 0 <= x <= 1) observed.
Proof.
  intros H. apply submit_scored in H.
  destruct H as (_ & _ & Hn & _ & -> & _).
  set (runs := findall_digits data_input) in *.
  set (n := Z.of_nat (List.length (filter valid_token runs))) in *.
  assert (Hpos : (0 < n)%Z) by (unfold n; lia).
  assert (Hsum : Text.sum (histogram_spec runs) = n)
    by apply sum_histogram_findall.
  split; [reflexivity |]. split.
  - rewrite total_of_observed by lia. rewrite Hsum.
    apply IZR_lt in Hpos. field. lra.
  - apply Forall_map.
    destruct (sum_bounds _ (histogram_spec_nonneg runs)) as [_ Hall].
    rewrite Hsum in Hall.
    eapply Forall_impl; [| exact Hall]. cbv beta. intros c [Hc0 Hcn].
    apply IZR_le in Hc0, Hcn. apply IZR_lt in Hpos.
    split.
    + apply Rmult_le_pos; [exact Hc0 | left; now apply Rinv_0_lt_compat].
    + apply Rmult_le_reg_r with (IZR n); [exact Hpos |].
      unfold Rdiv. rewrite Rmult_assoc, Rinv_l by lra. lra.
Qed.

(** X14.  A submission with a name that is not blank, at least 5 tokens,
    and between 1 and 300 valid tokens is scored: neither exception can
    occur. *)
Theorem small_dataset_is_scored (float_repr : R -> string)
    (username data_input now : string) (st : app_state) :
  is_empty (strip username) = false ->
  (5 <= List.length (findall_digits data_input))%nat ->
  (1 <= List.length (filter valid_token (findall_digits data_input)) <= 300)%nat ->
  exists s observed st',
    submit float_repr username data_input now st = (Scored s observed, st').
Proof. exact (submit_small float_repr username data_input now st). Qed.

Lemma small_dataset_is_scored_witness :
  exists s observed st',
    submit sample_repr "bob" "123 045 999 100 256 777" "2024-01-02 00:00:00"
      {| leaderboard := []; csv_file := None |}
    = (Scored s observed, st').
Proof.
  apply (small_dataset_is_scored sample_repr "bob" "123 045 999 100 256 777").
  - reflexivity.
  - vm_compute. lia.
  - vm_compute. lia.
Defined.

Lemma sample_submission :
  exists s observed st',
    submit sample_repr "bob" "123 045 999 100 256 777" "2024-01-02 00:00:00"
      {| leaderboard := [mk_entry "alice" 88.1 "2024-01-01 10:00:00"];
         csv_file := None |}
    = (Scored s observed, st').
Proof.
  apply submit_small; [reflexivity | vm_compute; lia | vm_compute; lia].
Qed.

Lemma scored_submission_effect_witness :
  exists s observed st',
    submit sample_repr "bob" "123 045 999 100 256 777" "2024-01-02 00:00:00"
      {| leaderboard := [mk_entry "alice" 88.1 "2024-01-01 10:00:00"];
         csv_file := None |}
    = (Scored s observed, st') /\
    0 <= s <= 88.1 /\ in_sync sample_repr st'.
Proof.
  destruct sample_submission as (s & observed & st' & H).
  exists s, observed, st'. split; [exact H |].
  destruct (scored_submission_effect sample_repr _ _ _ _ _ _ _ H)
    as (Hs & _ & _ & _ & Hsync).
  split; [exact Hs | exact Hsync].
Defined.

Lemma observed_is_a_distribution_witness :
  exists s observed st',
    submit sample_repr "bob" "123 045 999 100 256 777" "2024-01-02 00:00:00"
      {| leaderboard := [mk_entry "alice" 88.1 "2024-01-01 10:00:00"];
         csv_file := None |}
    = (Scored s observed, st') /\
    total_of observed = 1.
Proof.
  destruct sample_submission as (s & observed & st' & H).
  exists s, observed, st'. split; [exact H |].
  exact (proj1 (proj2 (observed_is_a_distribution sample_repr _ _ _ _ _ _ _ H))).
Defined.

End SubmitExtras.

(** ** More on the leaderboard and the admin controls *)

Section AdminFacts.

Local Open Scope R_scope.
Local Open Scope string_scope.

(** The first entry with a given name splits the leaderboard. *)
Lemma first_match_split (board : list entry) (selected_name : string) :
  In selected_name (map name board) ->
  exists pre e post,
    board = (pre ++ e :: post)%list /\ name e = selected_name /\
    Forall (fun x => String.eqb (name x) (name e) = false) pre.
Proof.
  induction board as [| x board IH]; [contradiction |].
  intros Hin. destruct (String.eqb_spec (name x) selected_name) as [Heq | Hne].
  - exists [], x, board. repeat split; [exact Heq | constructor].
  - destruct Hin as [Hx | Hin]; [contradiction |].
    destruct (IH Hin) as (pre & e & post & -> & He & Hpre).
    exists (x :: pre), e, post. repeat split; [exact He |].
    constructor; [| exact Hpre].
    apply String.eqb_neq. now rewrite He.
Qed.

Lemma find_index_absent (board : list entry) (selected_name : string) :
  ~ In selected_name (map name board) ->
  find_index board selected_name = Raise StopIteration.
Proof.
  induction board as [| x board IH]; intros Hnot; cbn [find_index]; [reflexivity |].
  cbn [map In] in Hnot.
  destruct (String.eqb_spec (name x) selected_name) as [Heq | Hne]; [tauto |].
  rewrite IH by tauto. reflexivity.
Qed.

Lemma set_name_same e : set_name (name e) e = e.
Proof. now destruct e. Qed.

(** X15.  The lookup of the admin controls succeeds exactly for the names
    the select box offers: both buttons then save; for any other name they
    raise [StopIteration] and change nothing. *)
Theorem admin_lookup_succeeds_for_listed_names (float_repr : R -> string)
    (selected_name new_name : string) (st : app_state) :
  (In selected_name (map name (leaderboard st)) ->
   fst (click_update float_repr selected_name new_name st) = Saved /\
   fst (click_delete float_repr selected_name st) = Saved) /\
  (~ In selected_name (map name (leaderboard st)) ->
   click_update float_repr selected_name new_name st
   = (Crashed StopIteration, st) /\
   click_delete float_repr selected_name st = (Crashed StopIteration, st)).
Proof.
  unfold click_update, click_delete, update_name, delete_entry. split.
  - intros Hin.
    destruct (first_match_split _ _ Hin) as (pre & e & post & -> & <- & Hpre).
    rewrite (find_index_first pre e post Hpre). cbn [bind].
    now rewrite rename_at_middle, pop_at_middle.
  - intros Hnot. now rewrite (find_index_absent _ _ Hnot).
Qed.

(** X16.  Deleting a listed name removes one entry, keeps the others in
    their order (so a sorted leaderboard stays sorted), and writes the file;
    when the entry was the only one, the file is left empty. *)
Theorem delete_effect (float_repr : R -> string) (selected_name : string)
    (st : app_state) :
  In selected_name (map name (leaderboard st)) ->
  exists st',
    click_delete float_repr selected_name st = (Saved, st') /\
    S (List.length (leaderboard st')) = List.length (leaderboard st) /\
    (sorted_desc (leaderboard st) -> sorted_desc (leaderboard st')) /\
    in_sync float_repr st' /\
    (List.length (leaderboard st) = 1%nat ->
     st' = {| leaderboard := []; csv_file := Some EmptyString |}).
Proof.
  intros Hin. unfold click_delete, delete_entry.
  destruct (first_match_split _ _ Hin) as (pre & e & post & Hboard & <- & Hpre).
  rewrite Hboard, (find_index_first pre e post Hpre). cbn [bind].
  rewrite pop_at_middle. eexists. split; [reflexivity |]. cbn [leaderboard].
  split; [rewrite !length_app; cbn [List.length]; lia |].
  split; [apply sorted_desc_remove |].
  split; [reflexivity |].
  rewrite length_app. cbn [List.length]. intros Hone.
  destruct pre; [| cbn [List.length] in Hone; lia].
  destruct post; [reflexivity | cbn [List.length] in Hone; lia].
Qed.

Lemma delete_effect_witness :
  click_delete sample_repr "alice"
    {| leaderboard := [mk_entry "alice" 88.1 "2024-01-01 10:00:00"];
       csv_file := None |}
  = (Saved, {| leaderboard := []; csv_file := Some EmptyString |}).
Proof.
  destruct (delete_effect sample_repr "alice"
              {| leaderboard := [mk_entry "alice" 88.1 "2024-01-01 10:00:00"];
                 csv_file := None |})
    as (st' & Hdel & _ & _ & _ & Hone).
  - left. reflexivity.
  - rewrite Hdel, (Hone eq_refl). reflexivity.
Defined.

(** X17.  Renaming a listed name changes the name of one entry and nothing
    else: scores, times and order stay, the new name is listed afterwards,
    and the file is written.  With the new name equal to the selected one
    the leaderboard is the same as before. *)
Theorem rename_effect (float_repr : R -> string)
    (selected_name new_name : string) (st : app_state) :
  In selected_name (map name (leaderboard st)) ->
  exists st',
    click_update float_repr selected_name new_name st = (Saved, st') /\
    map score (leaderboard st') = map score (leaderboard st) /\
    map timestamp (leaderboard st') = map timestamp (leaderboard st) /\
    In new_name (map name (leaderboard st')) /\
    (sorted_desc (leaderboard st) -> sorted_desc (leaderboard st')) /\
    in_sync float_repr st' /\
    (new_name = selected_name -> leaderboard st' = leaderboard st).
Proof.
  intros Hin. unfold click_update, update_name.
  destruct (first_match_split _ _ Hin) as (pre & e & post & Hboard & <- & Hpre).
  rewrite Hboard, (find_index_first pre e post Hpre). cbn [bind].
  rewrite rename_at_middle. eexists. split; [reflexivity |]. cbn [leaderboard].
  assert (Hscore : map score (pre ++ set_name new_name e :: post)%list
                   = map score (pre ++ e :: post)%list)
    by (rewrite !map_app; reflexivity).
  split; [exact Hscore |].
  split; [rewrite !map_app; reflexivity |].
  split; [rewrite map_app; apply in_or_app; right; now left |].
  split; [intros Hs; apply sorted_desc_scores; rewrite Hscore;
          now apply sorted_desc_scores |].
  split; [reflexivity |].
  intros ->. now rewrite set_name_same.
Qed.

Lemma rename_effect_witness :
  exists st',
    click_update sample_repr "bob" "robert"
      {| leaderboard := [mk_entry "alice" 88.1 "2024-01-01 10:00:00";
                         mk_entry "bob" 70.3 "2024-01-01 11:00:00"];
         csv_file := None |}
    = (Saved, st') /\
    In "robert" (map name (leaderboard st')).
Proof.
  destruct (rename_effect sample_repr "bob" "robert"
              {| leaderboard := [mk_entry "alice" 88.1 "2024-01-01 10:00:00";
                                 mk_entry "bob" 70.3 "2024-01-01 11:00:00"];
                 csv_file := None |})
    as (st' & Hupd & _ & _ & Hin & _).
  - right. left. reflexivity.
  - exists st'. split; [exact Hupd | exact Hin].
Defined.

End AdminFacts.

(** ** Where an appended entry lands *)

Section RankFacts.

Local Open Scope R_scope.
Local Open Scope string_scope.

Lemma insert_desc_first x l :
  Forall (fun y => score y <= score x) l -> insert_desc x l = x :: l.
Proof.
  intros H. destruct l as [| y l]; [reflexivity |].
  inversion H as [| ? ? Hy _]; subst. cbn [insert_desc].
  destruct (Rlt_dec (score x) (score y)); [exfalso; lra | reflexivity].
Qed.

Lemma sorted_by_score_desc_of_sorted b :
  sorted_desc b -> sorted_by_score_desc b = b.
Proof.
  unfold sorted_desc. induction 1 as [| x b Hb IH Hx]; [reflexivity |].
  cbn [sorted_by_score_desc fold_right]. fold (sorted_by_score_desc b).
  rewrite IH. now apply insert_desc_first.
Qed.

(** X18.  Sorting twice is sorting once: re-sorting a leaderboard that the
    handler sorted changes nothing. *)
Theorem sorting_is_idempotent (board : list entry) :
  sorted_by_score_desc (sorted_by_score_desc board)
  = sorted_by_score_desc board.
Proof.
  apply sorted_by_score_desc_of_sorted, sorted_by_score_desc_sorted.
Qed.

Lemma filter_all_below s b :
  Forall (fun y => score y < s) b ->
  filter (at_least s) b = [] /\ filter (below s) b = b.
Proof.
  induction 1 as [| y b Hy Hb [IH1 IH2]]; [split; reflexivity |].
  cbn [filter]. unfold at_least at 1, below at 1.
  destruct (Rle_dec s (score y)); [exfalso; lra |].
  destruct (Rlt_dec (score y) s); [| exfalso; lra].
  now rewrite IH1, IH2.
Qed.

Lemma sorted_split s b :
  sorted_desc b -> (filter (at_least s) b ++ filter (below s) b)%list = b.
Proof.
  unfold sorted_desc. induction 1 as [| x b Hb IH Hx]; [reflexivity |].
  cbn [filter]. unfold at_least at 1, below at 1.
  destruct (Rle_dec s (score x)) as [Hle | Hgt].
  - destruct (Rlt_dec (score x) s); [exfalso; lra |].
    cbn [app]. now rewrite IH.
  - destruct (Rlt_dec (score x) s); [| exfalso; lra].
    destruct (filter_all_below s b) as [-> ->]; [| reflexivity].
    eapply Forall_impl; [| exact Hx]. cbv beta. intros y Hy. lra.
Qed.

Lemma at_least_or_below s x :
  (s <= score x /\ at_least s x = true /\ below s x = false) \/
  (score x < s /\ at_least s x = false /\ below s x = true).
Proof.
  unfold at_least, below.
  destruct (Rle_dec s (score x)), (Rlt_dec (score x) s);
    try (left; repeat split; auto; lra);
    try (right; repeat split; auto; lra);
    exfalso; lra.
Qed.

Lemma append_entry_sorted board e :
  sorted_desc board ->
  append_entry board e
  = (filter (at_least (score e)) board
     ++ e :: filter (below (score e)) board)%list.
Proof.
  unfold append_entry, sorted_by_score_desc. rewrite fold_right_app.
  cbn [fold_right insert_desc].
  unfold sorted_desc. induction 1 as [| x b Hb IH Hx]; [reflexivity |].
  cbn [fold_right filter]. rewrite IH.
  destruct (at_least_or_below (score e) x) as [(Hle & -> & ->) | (Hlt & -> & ->)].
  - cbn [app]. apply insert_desc_first.
    apply Forall_app. split.
    + apply incl_Forall with b; [apply incl_filter | exact Hx].
    + constructor; [exact Hle |].
      apply incl_Forall with b; [apply incl_filter | exact Hx].
  - destruct (filter_all_below (score e) b) as [-> ->].
    { eapply Forall_impl; [| exact Hx]. cbv beta. intros y Hy. lra. }
    cbn [app insert_desc].
    destruct (Rlt_dec (score x) (score e)); [| contradiction].
    now rewrite (insert_desc_first x b Hx).
Qed.

(** X19.  In a sorted leaderboard a new entry lands after every entry whose
    score is at least its own and before every entry with a lower score: a
    newcomer ranks below the entries it ties with. *)
Theorem appended_entry_rank (board : list entry) (e : entry) :
  sorted_desc board ->
  append_entry board e
  = (filter (at_least (score e)) board ++ e :: filter (below (score e)) board)%list.
Proof. exact (append_entry_sorted board e). Qed.

Lemma appended_entry_rank_witness :
  append_entry
    [mk_entry "alice" 88.1 "2024-01-01 10:00:00";
     mk_entry "bob" 70.3 "2024-01-01 11:00:00";
     mk_entry "dave" 50 "2024-01-01 12:00:00"]
    (mk_entry "carol" 70.3 "2024-01-02 09:00:00")
  = [mk_entry "alice" 88.1 "2024-01-01 10:00:00";
     mk_entry "bob" 70.3 "2024-01-01 11:00:00";
     mk_entry "carol" 70.3 "2024-01-02 09:00:00";
     mk_entry "dave" 50 "2024-01-01 12:00:00"].
Proof.
  rewrite appended_entry_rank.
  - unfold at_least, below. cbn [filter score app].
    repeat match goal with
           | |- context [Rle_dec ?a ?b] =>
               destruct (Rle_dec a b); try (exfalso; lra)
           | |- context [Rlt_dec ?a ?b] =>
               destruct (Rlt_dec a b); try (exfalso; lra)
           end.
    reflexivity.
  - unfold sorted_desc. repeat constructor; cbn [score]; lra.
Defined.

Lemma find_index_in_middle pre e post :
  ~ In (name e) (map name pre) ->
  find_index (pre ++ e :: post) (name e) = Ok (List.length pre).
Proof.
  intros Hnot. apply find_index_first.
  apply Forall_forall. intros x Hx. apply String.eqb_neq. intros Heq.
  apply Hnot. rewrite <- Heq. now apply in_map.
Qed.

(** X20.  Deleting, by its name, an entry that was just appended to a
    sorted leaderboard gives the leaderboard back, when no other entry has
    that name. *)
Theorem delete_undoes_append (board : list entry) (e : entry) :
  sorted_desc board -> ~ In (name e) (map name board) ->
  delete_entry (append_entry board e) (name e) = Ok board.
Proof.
  intros Hsorted Hnew. rewrite (append_entry_sorted board e Hsorted).
  unfold delete_entry. rewrite find_index_in_middle.
  - cbn [bind]. rewrite pop_at_middle. now rewrite sorted_split.
  - intros Hin. apply Hnew. apply in_map_iff in Hin as (x & Hx & Hin).
    apply filter_In in Hin as [Hin _]. rewrite <- Hx. now apply in_map.
Qed.

Lemma delete_undoes_append_witness :
  delete_entry
    (append_entry
       [mk_entry "alice" 88.1 "2024-01-01 10:00:00";
        mk_entry "bob" 70.3 "2024-01-01 11:00:00"]
       (mk_entry "carol" 70.3 "2024-01-02 09:00:00"))
    "carol"
  = Ok [mk_entry "alice" 88.1 "2024-01-01 10:00:00";
        mk_entry "bob" 70.3 "2024-01-01 11:00:00"].
Proof.
  apply (delete_undoes_append
           [mk_entry "alice" 88.1 "2024-01-01 10:00:00";
            mk_entry "bob" 70.3 "2024-01-01 11:00:00"]
           (mk_entry "carol" 70.3 "2024-01-02 09:00:00")).
  - unfold sorted_desc. repeat constructor; cbn [score]; lra.
  - cbn. intros [H | [H | []]]; discriminate.
Defined.

(** X21.  Renaming an entry to a name that no entry has, and then renaming
    that name back, gives the leaderboard back. *)
Theorem rename_back_restores (board board' : list entry)
    (selected_name new_name : string) :
  ~ In new_name (map name board) ->
  update_name board selected_name new_name = Ok board' ->
  update_name board' new_name selected_name = Ok board.
Proof.
  intros Hnew Hupd.
  destruct (in_dec string_dec selected_name (map name board)) as [Hin | Hnot].
  - destruct (first_match_split _ _ Hin) as (pre & e & post & -> & <- & Hpre).
    unfold update_name in *.
    rewrite (find_index_first pre e post Hpre) in Hupd. cbn [bind] in Hupd.
    rewrite rename_at_middle in Hupd. inversion Hupd; subst board'.
    change new_name with (name (set_name new_name e)) at 1.
    rewrite find_index_in_middle.
    + cbn [bind]. rewrite rename_at_middle. f_equal. f_equal. f_equal.
      now destruct e.
    + cbn [name set_name]. intros Hp. apply Hnew.
      rewrite map_app. apply in_or_app. now left.
  - unfold update_name in Hupd.
    rewrite (find_index_absent _ _ Hnot) in Hupd. discriminate.
Qed.

Lemma rename_back_restores_witness :
  update_name
    [mk_entry "alice" 88.1 "2024-01-01 10:00:00";
     mk_entry "robert" 70.3 "2024-01-01 11:00:00"]
    "robert" "bob"
  = Ok [mk_entry "alice" 88.1 "2024-01-01 10:00:00";
        mk_entry "bob" 70.3 "2024-01-01 11:00:00"].
Proof.
  apply (rename_back_restores
           [mk_entry "alice" 88.1 "2024-01-01 10:00:00";
            mk_entry "bob" 70.3 "2024-01-01 11:00:00"]
           _ "bob" "robert").
  - cbn. intros [H | [H | []]]; discriminate.
  - reflexivity.
Defined.

End RankFacts.

(** ** More on loading *)

Section LoadFacts.

Local Open Scope string_scope.

Variable python_float : string -> option R.

Lemma load_row_wrong_length acc row :
  List.length row <> 3%nat -> load_row python_float acc row = Raise ValueError.
Proof.
  intros H. unfold load_row.
  destruct row as [| n [| s [| t [| ? ?]]]]; try reflexivity.
  now contradiction H.
Qed.

End LoadFacts.

Section LoadExtras.

Local Open Scope string_scope.

(** X22.  A row the reader yields with a number of fields other than three
    (a blank line yields a row with none) makes [load_leaderboard] raise
    [ValueError]: the row is not skipped and nothing is returned. *)
Theorem load_rejects_wrong_column_count (python_float : string -> option R)
    (text : string) (rows : list (list string)) (err : option exn) :
  reader text = (rows, err) ->
  (exists row, In row rows /\ List.length row <> 3%nat) ->
  load_leaderboard python_float (Some text) = Raise ValueError.
Proof.
  intros Hread (row & Hin & Hlen). unfold load_leaderboard. rewrite Hread.
  rewrite (load_rows_bad_row python_float rows row Hin); [reflexivity |].
  intros acc. now apply load_row_wrong_length.
Qed.

Lemma load_rejects_wrong_column_count_witness :
  load_leaderboard sample_float
    (Some (writerow ["alice"; "88.1"; "2024-01-01 10:00:00"] ++
           String LF EmptyString ++
           writerow ["bob"; "70.3"; "2024-01-01 11:00:00"]))
  = Raise ValueError.
Proof.
  eapply (load_rejects_wrong_column_count sample_float).
  - vm_compute. reflexivity.
  - exists []. split; [right; left; reflexivity | discriminate].
Defined.

(** X23.  A new session finds the leaderboard the last handler saved: when
    the file holds what [save_leaderboard] wrote for the leaderboard in
    memory, and its entries are ones the file can hold, [start_session]
    returns that very state. *)
Theorem new_session_sees_saved_leaderboard (float_repr : R -> string)
    (python_float : string -> option R) (st : app_state) :
  in_sync float_repr st ->
  Forall (loadable float_repr python_float) (leaderboard st) ->
  start_session python_float (csv_file st) = Ok st.
Proof.
  destruct st as [board file]. unfold in_sync. cbn [leaderboard csv_file].
  intros -> Hload. unfold start_session, load_leaderboard.
  rewrite (reader_of_saved float_repr python_float _ Hload).
  rewrite (load_rows_of_entries float_repr python_float _ Hload).
  reflexivity.
Qed.

Lemma new_session_sees_saved_leaderboard_witness :
  let board := [mk_entry "Doe, Jane" 88.1%R "2024-01-01 00:00:00"] in
  let st := {| leaderboard := board;
               csv_file := Some (save_leaderboard sample_repr board) |} in
  start_session sample_float (csv_file st) = Ok st.
Proof.
  intros board st.
  apply (new_session_sees_saved_leaderboard sample_repr sample_float st).
  - reflexivity.
  - constructor; [exact sample_entry_loadable | constructor].
Defined.

End LoadExtras.

(** ** When the reader fails *)

Section ReaderErrors.

Local Open Scope string_scope.

Lemma parse_add_char_raises r c e :
  parse_add_char r c = Raise e -> e = CsvError.
Proof.
  unfold parse_add_char.
  destruct (field_limit <=? N.of_nat (String.length (field r)))%N;
    intros H; now inversion H.
Qed.

Lemma parse_process_char_raises r c e :
  parse_process_char r c = Raise e -> e = CsvError.
Proof.
  unfold parse_process_char, process_start_field.
  destruct (state r), c as [ch |]; cbn [is_eol_or_newline is_char];
    repeat match goal with
           | |- context [if ?b then _ else _] => destruct b
           | |- context [parse_add_char ?x ?y] =>
               let H := fresh "Hadd" in
               destruct (parse_add_char x y) eqn:H;
               [| apply parse_add_char_raises in H; subst]
           end;
    cbn [bind]; intros H; now inversion H.
Qed.

Lemma feed_chars_raises s : forall r e,
  feed_chars r s = Raise e -> e = CsvError.
Proof.
  induction s as [| c s IH]; intros r e; cbn [feed_chars]; [discriminate |].
  destruct (parse_process_char r (Some c)) as [r' |] eqn:Hc; cbn [bind].
  - apply IH.
  - intros H. inversion H; subst. now apply parse_process_char_raises in Hc.
Qed.

Lemma feed_line_raises r line e : feed_line r line = Raise e -> e = CsvError.
Proof.
  unfold feed_line.
  destruct (feed_chars r line) as [r' |] eqn:Hc; cbn [bind].
  - apply parse_process_char_raises.
  - intros H. inversion H; subst. now apply feed_chars_raises in Hc.
Qed.

Lemma read_rows_error lines : forall r rows e,
  read_rows r lines = (rows, Some e) -> e = CsvError.
Proof.
  induction lines as [| line lines IH]; intros r rows e; cbn [read_rows].
  - destruct (negb (is_empty (field r)) || in_quoted_field r); discriminate.
  - destruct (feed_line r line) as [r' |] eqn:Hline.
    + destruct (at_start_record r').
      * destruct (read_rows parse_reset lines) as [rows' err'] eqn:Hrest.
        intros H. inversion H; subst. eapply IH; eauto.
      * apply IH.
    + intros H. inversion H; subst. now apply feed_line_raises in Hline.
Qed.

(** One character that is not a line break, away from [EAT_CRNL]. *)
Lemma step_plain r c :
  is_newline c = false -> state r <> EAT_CRNL ->
  (N.of_nat (String.length (field r)) < field_limit)%N ->
  exists r',
    parse_process_char r (Some c) = Ok r' /\ state r' <> EAT_CRNL /\
    (String.length (field r') <= S (String.length (field r)))%nat.
Proof.
  intros Hnl Hst Hlt.
  assert (Hadd : forall s,
            parse_add_char (set_state s r) c
            = Ok {| state := s; fields := fields r;
                    field := field r ++ String c EmptyString |})
    by (intros s; now rewrite parse_add_char_ok).
  assert (Hadd0 : parse_add_char r c
            = Ok {| state := state r; fields := fields r;
                    field := field r ++ String c EmptyString |})
    by now rewrite parse_add_char_ok.
  unfold parse_process_char, process_start_field.
  destruct (state r) eqn:Hs; cbn [is_eol_or_newline is_char];
    rewrite ?Hnl; try contradiction;
    destruct (Ascii.eqb c quotechar); destruct (Ascii.eqb c delimiter);
    rewrite ?Hadd, ?Hadd0; cbn [bind];
    (eexists; split; [reflexivity |]; split;
     [ cbn [state set_state parse_save_field]; rewrite ?Hs; discriminate
     | cbn [field set_state parse_save_field String.length];
       rewrite ?length_append; cbn [String.length]; lia ]).
Qed.

(** A line break character, in any state. *)
Lemma step_newline r c :
  is_newline c = true ->
  (N.of_nat (String.length (field r)) < field_limit)%N ->
  exists r',
    parse_process_char r (Some c) = Ok r' /\
    (String.length (field r') <= S (String.length (field r)))%nat.
Proof.
  intros Hnl Hlt.
  assert (Hq : Ascii.eqb c quotechar = false /\ Ascii.eqb c delimiter = false).
  { unfold is_newline in Hnl. apply orb_true_iff in Hnl as [H | H];
      apply Ascii.eqb_eq in H; subst c; split; reflexivity. }
  destruct Hq as [Hq Hd].
  assert (Hadd0 : parse_add_char r c
            = Ok {| state := state r; fields := fields r;
                    field := field r ++ String c EmptyString |})
    by now rewrite parse_add_char_ok.
  unfold parse_process_char, process_start_field.
  destruct (state r) eqn:Hs; cbn [is_eol_or_newline is_char];
    rewrite ?Hnl, ?Hq, ?Hd, ?Hadd0; cbn [bind];
    (eexists; split; [reflexivity |];
     cbn [field set_state parse_save_field String.length];
     rewrite ?length_append; cbn [String.length]; lia).
Qed.

(** The end-of-line mark. *)
Lemma step_eol r :
  exists r',
    parse_process_char r None = Ok r' /\
    (state r' = START_RECORD \/ state r' = IN_QUOTED_FIELD) /\
    (String.length (field r') <= String.length (field r))%nat.
Proof.
  unfold parse_process_char, process_start_field.
  destruct (state r) eqn:Hs; cbn [is_eol_or_newline is_char after_field];
    (eexists; split; [reflexivity |]; split;
     [ cbn [state set_state parse_save_field]; rewrite ?Hs; auto
     | cbn [field set_state parse_save_field String.length]; lia ]).
Qed.

Lemma feed_body body : forall r,
  no_newlines body = true -> state r <> EAT_CRNL ->
  (N.of_nat (String.length (field r) + String.length body) <= field_limit)%N ->
  exists r',
    feed_chars r body = Ok r' /\ state r' <> EAT_CRNL /\
    (String.length (field r')
     <= String.length (field r) + String.length body)%nat.
Proof.
  induction body as [| c body IH]; intros r Hnl Hst Hlen; cbn [feed_chars].
  - exists r. repeat split; auto. lia.
  - cbn [no_newlines] in Hnl. apply andb_true_iff in Hnl as [Hc Hnl].
    apply negb_true_iff in Hc. cbn [String.length] in Hlen.
    destruct (step_plain r c Hc Hst ltac:(lia)) as (r1 & -> & Hst1 & Hlen1).
    cbn [bind].
    destruct (IH r1 Hnl Hst1 ltac:(lia)) as (r' & -> & Hst' & Hlen').
    exists r'. repeat split; auto. cbn [String.length]. lia.
Qed.

Lemma feed_ending ending : forall r,
  only_newlines ending = true ->
  (N.of_nat (String.length (field r) + String.length ending) <= field_limit)%N ->
  exists r',
    feed_chars r ending = Ok r' /\
    (String.length (field r')
     <= String.length (field r) + String.length ending)%nat.
Proof.
  induction ending as [| c ending IH]; intros r Hnl Hlen; cbn [feed_chars].
  - exists r. split; [reflexivity | lia].
  - cbn [only_newlines] in Hnl. apply andb_true_iff in Hnl as [Hc Hnl].
    cbn [String.length] in Hlen.
    destruct (step_newline r c Hc ltac:(lia)) as (r1 & -> & Hlen1).
    cbn [bind].
    destruct (IH r1 Hnl ltac:(lia)) as (r' & -> & Hlen').
    exists r'. split; [reflexivity |]. cbn [String.length]. lia.
Qed.

Lemma feed_line_ok r line :
  line_ok line -> state r <> EAT_CRNL ->
  (N.of_nat (String.length (field r) + String.length line) <= field_limit)%N ->
  exists r',
    feed_line r line = Ok r' /\
    (state r' = START_RECORD \/ state r' = IN_QUOTED_FIELD) /\
    (String.length (field r')
     <= String.length (field r) + String.length line)%nat.
Proof.
  intros (body & ending & -> & Hbody & Hending) Hst Hlen.
  rewrite length_append in Hlen |- *.
  unfold feed_line. rewrite feed_chars_app.
  destruct (feed_body body r Hbody Hst ltac:(lia)) as (r1 & -> & Hst1 & Hlen1).
  cbn [bind].
  destruct (feed_ending ending r1 Hending ltac:(lia)) as (r2 & -> & Hlen2).
  cbn [bind].
  destruct (step_eol r2) as (r3 & -> & Hst3 & Hlen3).
  exists r3. repeat split; auto. lia.
Qed.

Lemma read_rows_no_error lines : forall r,
  Forall line_ok lines -> state r <> EAT_CRNL ->
  (N.of_nat (String.length (field r) + chars_of lines) <= field_limit)%N ->
  snd (read_rows r lines) = None.
Proof.
  induction lines as [| line lines IH]; intros r Hok Hst Hlen; cbn [read_rows].
  - destruct (negb (is_empty (field r)) || in_quoted_field r); reflexivity.
  - inversion Hok as [| ? ? Hline Hrest]; subst.
    cbn [chars_of fold_right] in Hlen. fold (chars_of lines) in Hlen.
    destruct (feed_line_ok r line Hline Hst ltac:(lia))
      as (r' & -> & Hst' & Hlen').
    destruct (at_start_record r').
    + specialize (IH parse_reset Hrest).
      destruct (read_rows parse_reset lines) as [rows err]. cbn [snd] in *.
      apply IH; [discriminate |]. cbn [parse_reset field String.length]. lia.
    + apply IH; [exact Hrest | destruct Hst' as [-> | ->]; discriminate | lia].
Qed.

End ReaderErrors.

Section FileLines.

Local Open Scope string_scope.

Lemma no_newlines_snoc cur c :
  no_newlines cur = true -> is_newline c = false ->
  no_newlines (cur ++ String c EmptyString) = true.
Proof.
  intros Hcur Hc. induction cur as [| x cur IH]; cbn [append no_newlines] in *.
  - now rewrite Hc.
  - apply andb_true_iff in Hcur as [Hx Hcur]. now rewrite Hx, IH.
Qed.

Lemma line_ok_ending cur ending :
  no_newlines cur = true -> only_newlines ending = true ->
  line_ok (cur ++ ending).
Proof. intros Hcur Hending. now exists cur, ending. Qed.

Lemma flush_ok cur :
  no_newlines cur = true ->
  Forall line_ok (flush cur) /\ chars_of (flush cur) = String.length cur.
Proof.
  intros Hcur. destruct cur as [| c cur]; cbn [flush is_empty].
  - split; [constructor | reflexivity].
  - split.
    + constructor; [| constructor].
      rewrite <- (append_nil_r (String c cur)). now apply line_ok_ending.
    + cbn [chars_of fold_right]. lia.
Qed.

Lemma lines_from_ok (n : nat) : forall s cur,
  (String.length s <= n)%nat -> no_newlines cur = true ->
  Forall line_ok (lines_from cur s) /\
  chars_of (lines_from cur s) = (String.length cur + String.length s)%nat.
Proof.
  induction n as [| n IH]; intros s cur Hn Hcur.
  - destruct s; [| cbn [String.length] in Hn; lia].
    cbn [lines_from String.length].
    destruct (flush_ok cur Hcur) as [H1 H2]. split; [exact H1 | lia].
  - destruct s as [| c s].
    { cbn [lines_from String.length].
      destruct (flush_ok cur Hcur) as [H1 H2]. split; [exact H1 | lia]. }
    cbn [String.length] in Hn. cbn [lines_from].
    destruct (Ascii.eqb c LF) eqn:Hlf.
    + apply Ascii.eqb_eq in Hlf. subst c.
      destruct (IH s EmptyString ltac:(lia) eq_refl) as [H1 H2].
      split.
      * constructor; [now apply line_ok_ending | exact H1].
      * cbn [chars_of fold_right]. fold (chars_of (lines_from EmptyString s)).
        rewrite H2, length_append. cbn [String.length]. lia.
    + destruct (Ascii.eqb c CR) eqn:Hcr.
      * apply Ascii.eqb_eq in Hcr. subst c.
        destruct s as [| c2 s2].
        { destruct (IH EmptyString EmptyString ltac:(cbn; lia) eq_refl)
            as [H1 H2].
          split.
          - constructor; [now apply line_ok_ending | exact H1].
          - cbn [chars_of fold_right].
            fold (chars_of (lines_from EmptyString EmptyString)).
            rewrite H2, length_append. cbn [String.length]. lia. }
        cbn [String.length] in Hn.
        destruct (Ascii.eqb c2 LF) eqn:Hlf2.
        { apply Ascii.eqb_eq in Hlf2. subst c2.
          destruct (IH s2 EmptyString ltac:(lia) eq_refl) as [H1 H2].
          split.
          - constructor; [| exact H1].
            rewrite append_assoc. now apply line_ok_ending.
          - cbn [chars_of fold_right].
            fold (chars_of (lines_from EmptyString s2)).
            rewrite H2, !length_append. cbn [String.length]. lia. }
        destruct (IH (String c2 s2) EmptyString ltac:(cbn; lia) eq_refl)
          as [H1 H2].
        split.
        { constructor; [now apply line_ok_ending | exact H1]. }
        cbn [chars_of fold_right].
        fold (chars_of (lines_from EmptyString (String c2 s2))).
        rewrite H2, length_append. cbn [String.length]. lia.
      * assert (Hc : is_newline c = false)
          by (unfold is_newline; now rewrite Hlf, Hcr).
        destruct (IH s (cur ++ String c EmptyString) ltac:(lia)
                    (no_newlines_snoc cur c Hcur Hc)) as [H1 H2].
        split; [exact H1 |].
        rewrite H2, length_append. cbn [String.length]. lia.
Qed.

Lemma reader_short_text text :
  (N.of_nat (String.length text) <= field_limit)%N ->
  snd (reader text) = None.
Proof.
  intros Hlen. unfold reader, file_lines.
  destruct (lines_from_ok (String.length text) text EmptyString (le_n _) eq_refl)
    as [Hok Hchars].
  apply read_rows_no_error; [exact Hok | discriminate |].
  rewrite Hchars. cbn [parse_reset field String.length]. lia.
Qed.

Lemma load_rows_raise python_float rows : forall acc e,
  for_each rows (load_row python_float) acc = Raise e -> e = ValueError.
Proof.
  induction rows as [| row rows IH]; intros acc e; cbn [for_each]; [discriminate |].
  destruct (load_row python_float acc row) as [acc' |] eqn:Hrow; cbn [bind].
  - apply IH.
  - intros H. inversion H; subst. now apply load_row_raises in Hrow.
Qed.

(** X24.  [load_leaderboard] fails in two ways only: with [ValueError], for
    a row that has not three fields or a score [float] does not read, or
    with the reader's error, which needs a file of more than 131072
    characters (a field over the size limit). *)
Theorem load_fails_in_two_ways (python_float : string -> option R)
    (text : string) (e : exn) :
  load_leaderboard python_float (Some text) = Raise e ->
  e = ValueError \/
  (e = CsvError /\ (field_limit < N.of_nat (String.length text))%N).
Proof.
  unfold load_leaderboard.
  destruct (reader text) as [rows err] eqn:Hread.
  destruct (for_each rows (load_row python_float) []) as [data |] eqn:Hrows;
    cbn [bind].
  - destruct err as [e' |]; [| discriminate].
    intros H. inversion H; subst. right. split.
    + unfold reader in Hread. now apply read_rows_error in Hread.
    + destruct (N.le_gt_cases (N.of_nat (String.length text)) field_limit)
        as [Hshort | Hlong]; [| exact Hlong].
      apply reader_short_text in Hshort. rewrite Hread in Hshort. discriminate.
  - intros H. inversion H; subst. left. now apply load_rows_raise in Hrows.
Qed.

Lemma load_fails_in_two_ways_witness :
  ValueError = ValueError \/
  (ValueError = CsvError /\
   (field_limit < N.of_nat (String.length "alice,88.1"))%N).
Proof.
  apply (load_fails_in_two_ways sample_float "alice,88.1" ValueError).
  reflexivity.
Defined.

End FileLines.

(** ** The runs of a session *)

Section SessionRuns.

Local Open Scope string_scope.

Variable float_repr : R -> string.

Lemma first_run_state (python_float : string -> option R) :
  start_session python_float None
  = Ok {| leaderboard := []; csv_file := None |}.
Proof. reflexivity. Qed.

Lemma submit_keeps_order username data_input now st :
  sorted_desc (leaderboard st) ->
  sorted_desc (leaderboard (snd (submit float_repr username data_input now st))).
Proof.
  intros Hst. unfold submit.
  destruct (is_empty (strip username)); [exact Hst |].
  destruct (List.length (findall_digits data_input) <? 5)%nat; [exact Hst |].
  destruct (score_dataset (findall_digits data_input)) as [[s o] |];
    [| exact Hst].
  cbn [snd leaderboard]. apply sorted_by_score_desc_sorted.
Qed.

Lemma submit_keeps_sync username data_input now st :
  let st' := snd (submit float_repr username data_input now st) in
  st' = st \/ in_sync float_repr st'.
Proof.
  unfold submit.
  destruct (is_empty (strip username)); [now left |].
  destruct (List.length (findall_digits data_input) <? 5)%nat; [now left |].
  destruct (score_dataset (findall_digits data_input)) as [[s o] |];
    [| now left].
  right. reflexivity.
Qed.

Lemma click_update_keeps_sync selected_name new_name st :
  let st' := snd (click_update float_repr selected_name new_name st) in
  st' = st \/ in_sync float_repr st'.
Proof.
  unfold click_update.
  destruct (update_name (leaderboard st) selected_name new_name);
    [right; reflexivity | now left].
Qed.

Lemma click_delete_keeps_sync selected_name st :
  let st' := snd (click_delete float_repr selected_name st) in
  st' = st \/ in_sync float_repr st'.
Proof.
  unfold click_delete.
  destruct (delete_entry (leaderboard st) selected_name);
    [right; reflexivity | now left].
Qed.

(** X25.  In a session that starts without a file, whatever buttons are
    pressed with whatever inputs, the leaderboard in memory stays sorted by
    decreasing score, and the file, once written, holds what
    [save_leaderboard] writes for it. *)
Theorem session_keeps_leaderboard_sorted (st : app_state) :
  reachable float_repr st ->
  sorted_desc (leaderboard st) /\
  (in_sync float_repr st \/ (leaderboard st = [] /\ csv_file st = None)).
Proof.
  induction 1 as [| st username data_input now Hst [IHs IHf]
                  | st selected_name new_name Hst [IHs IHf]
                  | st selected_name Hst [IHs IHf]].
  - split; [constructor | right; split; reflexivity].
  - split; [now apply submit_keeps_order |].
    destruct (submit_keeps_sync username data_input now st) as [-> | Hsync];
      [exact IHf | now left].
  - split.
    + rewrite click_update_mutates. now apply mutate_sorted.
    + destruct (click_update_keeps_sync selected_name new_name st)
        as [-> | Hsync]; [exact IHf | now left].
  - split.
    + rewrite click_delete_mutates. now apply mutate_sorted.
    + destruct (click_delete_keeps_sync selected_name st) as [-> | Hsync];
        [exact IHf | now left].
Qed.

End SessionRuns.

Lemma session_keeps_leaderboard_sorted_witness :
  let st0 := {| leaderboard := []; csv_file := None |} in
  let st1 := snd (submit sample_repr "alice" "12 23 35 47 59"
                    "2024-01-01 10:00:00" st0) in
  let st2 := snd (click_update sample_repr "alice" "alicia" st1) in
  sorted_desc (leaderboard st2) /\
  (in_sync sample_repr st2 \/ (leaderboard st2 = [] /\ csv_file st2 = None)).
Proof.
  intros st0 st1 st2.
  apply (session_keeps_leaderboard_sorted sample_repr st2).
  unfold st2, st1, st0. apply reach_update. apply reach_submit.
  apply reach_first_run.
Defined.
